(** * db-assistant.tsx: the AI assistant view

    A shallow embedding of the stateful parts of
    [src/app/components/ai-assistant/db-assistant.tsx]:

    - [Usage]: the grouping reduction, the date sort, the "no data"
      branch and the dates of the cards of [UsageStatistics];
    - [ListItem]: [handleRename] / [handleKeyDown] of [ConversationListItem];
    - [NewDialog]: [handleCreate] of [NewConversationDialog];
    - [Assistant]: the [load*] functions of [DbAssistant], each run to
      its end;
    - [Async]: the same functions run from one [await] to the next, so
      that loads overlap;
    - [JsNumber], [Settings]: the selects and the saving of
      [AssistantSettings].

    React state is modelled by explicit state passing: every handler is a
    function from the component state (and from what the environment
    answers: a fetch outcome, a promise outcome) to the next state; calls
    to props, [toast], [console.error] and [fetch] are recorded in logs.
    The source at hand ends inside [createConversation]; the three
    callers it lacks are marked where they are modelled.

    Numbers.  [tokens_used] and [request_count] are counts, and
    identifiers are integers: they are values of [Z].  The sums of the
    component are sums of JS numbers: [Js.add] rounds the exact sum to
    the nearest binary64 value, which is the exact sum as long as it
    stays within [2^53] in magnitude.

    Dates.  A date is the string the backend sent.  It is a key of a
    plain object, with all that [Object.prototype] brings, and it is read
    as a time by [Date], which is a parameter ([getTime]). *)

From Stdlib Require Import ZArith NArith List String Ascii Bool Lia.
From Stdlib Require Import Permutation Sorted DecimalString QArith_base.
From Stdlib Require DecimalPos DecimalZ.
Import ListNotations.

Local Open Scope string_scope.
Local Open Scope Z_scope.

(* ================================================================= *)
(** * The JavaScript runtime the component relies on *)

Module Js.

(** ** Completion of a computation: a value or a thrown exception *)

Inductive exn : Type :=
| TypeError
| RangeError.

Inductive completion (A : Type) : Type :=
| Returns (a : A)
| Throws (e : exn).

Arguments Returns {A} a.
Arguments Throws {A} e.

Definition bind {A B} (c : completion A) (k : A -> completion B)
  : completion B :=
  match c with
  | Returns a => k a
  | Throws e => Throws e
  end.

(** [Array.prototype.reduce] with a callback that may throw. *)
Fixpoint reduce {A B} (f : A -> B -> completion A) (l : list B) (acc : A)
  : completion A :=
  match l with
  | [] => Returns acc
  | x :: l' => bind (f acc x) (reduce f l')
  end.

(** [Array.prototype.map] with a callback that may throw. *)
Fixpoint Array_map {A B} (f : A -> completion B) (l : list A)
  : completion (list B) :=
  match l with
  | [] => Returns []
  | x :: l' =>
      bind (f x) (fun y => bind (Array_map f l') (fun ys => Returns (y :: ys)))
  end.

(** ** Numbers

    A number is a binary64 value.  An integer is one when rounding
    leaves it as it is, as it does every integer up to [2^53] in
    magnitude.  [nearest] is the rounding of an integer to the nearest
    number, a tie going to the even significand of 53 bits, and the sum
    of two numbers is their exact sum rounded.  Magnitudes are taken to
    stay below [2^1024]: [Infinity] is no value here. *)

Definition nearest_magnitude (n : Z) : Z :=
  let e := Z.log2 n - 52 in
  if e <=? 0 then n
  else
    let q := n / 2 ^ e in
    let r := n mod 2 ^ e in
    let half := 2 ^ (e - 1) in
    if ((r <? half) || ((r =? half) && Z.even q))%bool
    then q * 2 ^ e
    else (q + 1) * 2 ^ e.

Definition nearest (n : Z) : Z := Z.sgn n * nearest_magnitude (Z.abs n).

(** [a + b], and so [a += b], on numbers that are integers. *)
Definition add (a b : Z) : Z := nearest (a + b).

(** ** Plain objects used as maps

    An object literal [{}] is a list of own properties in creation
    order, on top of [Object.prototype]. *)

Definition object (V : Type) : Type := list (string * V).

Definition keys {V} (o : object V) : list string := map fst o.

Fixpoint get_own {V} (k : string) (o : object V) : option V :=
  match o with
  | [] => None
  | (k', v) :: o' => if String.eqb k k' then Some v else get_own k o'
  end.

(** [o[k] = v]: overwrite in place, or create the property last. *)
Fixpoint set_own {V} (k : string) (v : V) (o : object V) : object V :=
  match o with
  | [] => [(k, v)]
  | (k', v') :: o' =>
      if String.eqb k k' then (k', v) :: o' else (k', v') :: set_own k v o'
  end.

(** The names every plain object inherits from [Object.prototype]; each
    of them reads as a truthy value (a function, or the prototype
    itself for [__proto__]). *)
Definition Object_prototype_names : list string :=
  [ "constructor"; "hasOwnProperty"; "isPrototypeOf";
    "propertyIsEnumerable"; "toLocaleString"; "toString"; "valueOf";
    "__proto__"; "__defineGetter__"; "__defineSetter__";
    "__lookupGetter__"; "__lookupSetter__" ].

Definition inherited (k : string) : bool :=
  existsb (String.eqb k) Object_prototype_names.

(** What the expression [o[k]] evaluates to. *)
Inductive lookup (V : Type) : Type :=
| Own (v : V)
| Inherited
| Undefined.

Arguments Own {V} v.
Arguments Inherited {V}.
Arguments Undefined {V}.

Definition get {V} (k : string) (o : object V) : lookup V :=
  match get_own k o with
  | Some v => Own v
  | None => if inherited k then Inherited else Undefined
  end.

(** ** Enumeration order of own properties

    Array indices (canonical decimal strings below [2^32 - 1]) come
    first in ascending numeric order, then the other string keys in
    creation order. *)

Definition digit_of (c : ascii) : option N :=
  let n := N_of_ascii c in
  if ((48 <=? n) && (n <=? 57))%N then Some (n - 48)%N else None.

Fixpoint decimal_value (s : string) (acc : N) : option N :=
  match s with
  | EmptyString => Some acc
  | String c s' =>
      match digit_of c with
      | Some d => decimal_value s' (10 * acc + d)%N
      | None => None
      end
  end.

Definition array_index (s : string) : option N :=
  match s with
  | EmptyString => None
  | String c s' =>
      if Ascii.eqb c "0"%char
      then match s' with EmptyString => Some 0%N | _ => None end
      else match decimal_value s 0%N with
           | Some n => if (n <? 4294967295)%N then Some n else None
           | None => None
           end
  end.

Definition is_index {V} (p : string * V) : bool :=
  match array_index (fst p) with Some _ => true | None => false end.

Definition index_of {V} (p : string * V) : N :=
  match array_index (fst p) with Some n => n | None => 0%N end.

Fixpoint insert_by_index {V} (p : string * V) (l : object V) : object V :=
  match l with
  | [] => [p]
  | q :: l' =>
      if (index_of p <=? index_of q)%N then p :: l
      else q :: insert_by_index p l'
  end.

Definition own_enumerable {V} (o : object V) : object V :=
  (fold_right insert_by_index [] (filter is_index o)
     ++ filter (fun p => negb (is_index p)) o)%list.

Definition Object_values {V} (o : object V) : list V :=
  map snd (own_enumerable o).

(** ** [Array.prototype.sort]

    The sort is stable; the comparator's result is a number, with [NaN]
    read as [+0].  [a] goes before [b] when [comparefn a b < 0].  With a
    consistent comparator every such sort gives the result of the sort
    by insertion below; with another the order is up to the engine, and
    the model is the sort by insertion. *)

Fixpoint sort_insert {A} (comparefn : A -> A -> Z) (x : A) (l : list A)
  : list A :=
  match l with
  | [] => [x]
  | y :: l' =>
      if comparefn x y <=? 0 then x :: l
      else y :: sort_insert comparefn x l'
  end.

Definition Array_sort {A} (comparefn : A -> A -> Z) (l : list A)
  : list A :=
  fold_right (sort_insert comparefn) [] l.

(** ** Strings whose characters matter

    Text that is trimmed or tested for emptiness is kept as the
    sequence of its UTF-16 code units; text that is only compared or
    passed along is a [string]. *)

Definition text : Type := list N.

Definition ascii_text (s : string) : text :=
  map N_of_ascii (list_ascii_of_string s).

(** [WhiteSpace] and [LineTerminator] of ECMAScript: what
    [String.prototype.trim] strips. *)
Definition is_white_space (c : N) : bool :=
  ((c =? 9) || (c =? 11) || (c =? 12) || (c =? 32) || (c =? 160)
   || (c =? 65279) || (c =? 5760) || ((8192 <=? c) && (c <=? 8202))
   || (c =? 8239) || (c =? 8287) || (c =? 12288))%N.

Definition is_line_terminator (c : N) : bool :=
  ((c =? 10) || (c =? 13) || (c =? 8232) || (c =? 8233))%N.

Definition strippable (c : N) : bool :=
  is_white_space c || is_line_terminator c.

Fixpoint trimStart (s : text) : text :=
  match s with
  | [] => []
  | c :: s' => if strippable c then trimStart s' else s
  end.

Definition trimEnd (s : text) : text := rev (trimStart (rev s)).

Definition trim (s : text) : text := trimEnd (trimStart s).

(** Empty, or made of white space and line terminators only. *)
Definition blank (s : text) : bool := forallb strippable s.

(** A string is truthy when it is not empty. *)
Definition truthy (s : text) : bool :=
  match s with [] => false | _ :: _ => true end.

(** ** Thrown values: [error instanceof Error ? error.message : ...] *)

Inductive thrown : Type :=
| ErrorObject (message : string)
| OtherValue.

End Js.

Notation "x <- c ;; k" := (Js.bind c (fun x => k))
  (at level 61, c at next level, right associativity).

(* ================================================================= *)
(** * UsageStatistics *)

Module Usage.
Import Js.

Record UsageStat : Type := mkUsageStat {
  date : string;
  tokens_used : Z;
  request_count : Z;
  model_name : string;
  provider : string
}.

(** The value stored under [acc[date].models[modelKey]]. *)
Record ModelEntry : Type := mkModelEntry {
  name : string;
  entry_provider : string;
  tokens : Z;
  requests : Z
}.

(** The value stored under [acc[date]]. *)
Record DateBucket : Type := mkDateBucket {
  bucket_date : string;
  totalTokens : Z;
  totalRequests : Z;
  models : object ModelEntry
}.

Definition modelKey (stat : UsageStat) : string :=
  provider stat ++ "-" ++ model_name stat.

(** Lines 565-576: the per-model part of the reducer. *)
Definition add_to_models (stat : UsageStat) (ms : object ModelEntry)
  : object ModelEntry :=
  let ms1 :=
    match get (modelKey stat) ms with
    | Undefined =>
        set_own (modelKey stat)
          (mkModelEntry (model_name stat) (provider stat) 0 0) ms
    | _ => ms
    end in
  match get_own (modelKey stat) ms1 with
  | Some m =>
      set_own (modelKey stat)
        (mkModelEntry (name m) (entry_provider m)
           (add (tokens m) (tokens_used stat))
           (add (requests m) (request_count stat))) ms1
  | None =>
      (* lines 575-576 write to an inherited function object *)
      ms1
  end.

(** Lines 551-579: the reducer.  After the test of line 553 [acc[date]]
    is an own bucket, or else the inherited object that made the test
    fail: then the two [+=] of lines 562-563 write to that object, which
    has no [models], and line 566 reads a property of [undefined]. *)
Definition group_step (acc : object DateBucket) (stat : UsageStat)
  : completion (object DateBucket) :=
  let acc1 :=
    match get (date stat) acc with
    | Undefined => set_own (date stat) (mkDateBucket (date stat) 0 0 []) acc
    | _ => acc
    end in
  match get_own (date stat) acc1 with
  | Some b =>
      Returns
        (set_own (date stat)
           (mkDateBucket (bucket_date b)
              (add (totalTokens b) (tokens_used stat))
              (add (totalRequests b) (request_count stat))
              (add_to_models stat (models b))) acc1)
  | None => Throws TypeError
  end.

Definition groupedByDate (usageStats : list UsageStat)
  : completion (object DateBucket) :=
  reduce group_step usageStats [].

Section WithDate.

(** [new Date(s).getTime()]: the time value in milliseconds, [None]
    for an invalid date ([NaN]).  Which strings are dates is up to the
    engine, so the function is a parameter. *)
Variable getTime : string -> option Z.

(** Line 585: [new Date(b.date).getTime() - new Date(a.date).getTime()];
    a [NaN] difference counts as [+0].  (The difference of two time
    values may round; its sign, which is all that the sort looks at,
    is that of the exact difference.) *)
Definition compare_dates (a b : DateBucket) : Z :=
  match getTime (bucket_date b), getTime (bucket_date a) with
  | Some tb, Some ta => tb - ta
  | _, _ => 0
  end.

Definition sortedStats (usageStats : list UsageStat)
  : completion (list DateBucket) :=
  grouped <- groupedByDate usageStats ;;
  Returns (Array_sort compare_dates (Object_values grouped)).

(** What the component renders: the placeholder, or the two grand
    totals, the number of days and one card per bucket. *)
Inductive view : Type :=
| NoData
| Statistics (shownTokens shownRequests : Z) (activeDays : nat)
    (daily : list DateBucket).

(** Line 640: [format(new Date(stat.date), ...)] of date-fns throws a
    [RangeError] on an invalid date.  The text it gives on a valid one
    is not modelled: the card is the bucket. *)
Definition card (stat : DateBucket) : completion DateBucket :=
  match getTime (bucket_date stat) with
  | Some _ => Returns stat
  | None => Throws RangeError
  end.

(** Lines 588-677.  The grand totals of lines 605 and 616 are reduced
    before the cards of line 636 are made. *)
Definition UsageStatistics (usageStats : list UsageStat)
  : completion view :=
  stats <- sortedStats usageStats ;;
  if Nat.eqb (List.length stats) 0 then Returns NoData
  else
    let shownTokens :=
      fold_left (fun sum stat => add sum (totalTokens stat)) stats 0 in
    let shownRequests :=
      fold_left (fun sum stat => add sum (totalRequests stat)) stats 0 in
    daily <- Array_map card stats ;;
    Returns (Statistics shownTokens shownRequests (List.length stats) daily).

End WithDate.

(** A [getTime] for examples: three ISO days with their UTC time
    values, every other string invalid. *)
Definition sample_getTime (s : string) : option Z :=
  if String.eqb s "2024-01-01" then Some 1704067200000
  else if String.eqb s "2024-01-02" then Some 1704153600000
  else if String.eqb s "2024-01-03" then Some 1704240000000
  else None.

Definition sample_rows : list UsageStat :=
  [ mkUsageStat "2024-01-01" 100 1 "gpt-4" "openai";
    mkUsageStat "2024-01-02" 40 2 "claude" "anthropic";
    mkUsageStat "2024-01-01" 7 3 "gpt-4" "openai";
    mkUsageStat "2024-01-03" 5 1 "gemini-pro" "gemini";
    mkUsageStat "2024-01-01" 11 4 "claude" "anthropic" ].

Definition sample_sorted : list DateBucket :=
  Eval vm_compute in
    match sortedStats sample_getTime sample_rows with
    | Returns out => out
    | Throws _ => []
    end.

End Usage.

(* ================================================================= *)
(** * The records mirrored from the backend (lines 36-85) *)

Module Model.
Import Js.

Inductive Role : Type := user | assistant | system.

Record Message : Type := mkMessage {
  message_id : Z;
  conversation_id : Z;
  role : Role;
  content : string;
  message_tokens_used : option Z;
  message_created_at : string
}.

Record Conversation : Type := mkConversation {
  id : Z;
  user_id : Z;
  title : text;
  model_id : option Z;
  system_prompt : option string;
  is_pinned : bool;
  created_at : string;
  updated_at : string
}.

Record AiModel : Type := mkAiModel {
  ai_id : Z;
  ai_name : string;
  ai_provider : string;
  ai_model_id : string;
  description : option string;
  is_active : bool;
  ai_created_at : string;
  ai_updated_at : string
}.

Record UserPreference : Type := mkUserPreference {
  pref_user_id : Z;
  default_model_id : option Z;
  default_system_prompt : option string;
  temperature : QArith_base.Q;
  max_tokens : Z;
  theme : string;
  language : string;
  pref_created_at : string;
  pref_updated_at : string
}.

(** The argument of [toast]. *)
Inductive Variant : Type := destructive.

Record Toast : Type := mkToast {
  toast_title : string;
  toast_description : string;
  variant : option Variant
}.

Definition error_description (e : thrown) : string :=
  match e with
  | ErrorObject message => message
  | OtherValue => "发生未知错误"
  end.

End Model.

(* ================================================================= *)
(** * ConversationListItem (lines 147-259) *)

Module ListItem.
Import Js Model.

(** The component's [useState] cells. *)
Record State : Type := mkState {
  isEditing : bool;
  title : text
}.

Definition init (conversation : Conversation) : State :=
  mkState false (Model.title conversation).

(** Calls of the props received from the parent. *)
Inductive call : Type :=
| onClick
| onDelete
| onRename (newTitle : text)
| onTogglePin.

(** Lines 172-177. *)
Definition handleRename (s : State) : State * list call :=
  if truthy (trim (title s))
  then (mkState false (title s), [onRename (title s)])
  else (s, []).

(** Lines 179-186. *)
Definition handleKeyDown (conversation : Conversation) (key : string)
    (s : State) : State * list call :=
  if String.eqb key "Enter" then handleRename s
  else if String.eqb key "Escape"
       then (mkState false (Model.title conversation), [])
       else (s, []).

(** The two ways the input submits a rename: [onBlur] and the Enter
    key. *)
Inductive submission : Type := Blur | EnterKey.

Definition submit (conversation : Conversation) (how : submission)
    (s : State) : State * list call :=
  match how with
  | Blur => handleRename s
  | EnterKey => handleKeyDown conversation "Enter" s
  end.

(** Clicks.  A click bubbles from the clicked element to the row, whose
    handler is [onClick], unless the element's handler stops it. *)
Inductive target : Type :=
| Row | TitleInput | PinButton | RenameButton | DeleteButton.

Definition own_handler (t : target) (s : State)
  : State * list call * bool :=
  match t with
  | Row => (s, [], false)
  | TitleInput => (s, [], true)
  | PinButton => (s, [onTogglePin], true)
  | RenameButton => (mkState true (title s), [], true)
  | DeleteButton => (s, [onDelete], true)
  end.

(** The input is there while editing, the pin and rename buttons while
    not; the row and the delete button always. *)
Definition rendered (t : target) (s : State) : bool :=
  match t with
  | Row | DeleteButton => true
  | TitleInput => isEditing s
  | PinButton | RenameButton => negb (isEditing s)
  end.

Definition click (t : target) (s : State) : State * list call :=
  if rendered t s then
    let '(s', calls, stopped) := own_handler t s in
    if stopped then (s', calls) else (s', (calls ++ [onClick])%list)
  else (s, []).

End ListItem.

(* ================================================================= *)
(** * NewConversationDialog (lines 681-770) *)

Module NewDialog.
Import Js Model.

Record State : Type := mkState {
  title : text;
  modelId : option Z;
  systemPrompt : string;
  isCreating : bool
}.

(** ["新对话"] *)
Definition default_title : text := [26032; 23545; 35805]%N.

Definition init : State := mkState default_title None "" false.

Inductive effect : Type :=
| onCreateConversation (title : text) (modelId : option Z)
    (systemPrompt : option string)
| onOpenChange (open : bool)
| toast (t : Toast).

(** How the promise returned by [onCreateConversation] settles. *)
Inductive settled : Type :=
| Resolved
| Rejected (error : thrown).

Definition setTitle (v : text) (s : State) : State :=
  mkState v (modelId s) (systemPrompt s) (isCreating s).
Definition setModelId (v : option Z) (s : State) : State :=
  mkState (title s) v (systemPrompt s) (isCreating s).
Definition setSystemPrompt (v : string) (s : State) : State :=
  mkState (title s) (modelId s) v (isCreating s).
Definition setIsCreating (v : bool) (s : State) : State :=
  mkState (title s) (modelId s) (systemPrompt s) v.

(** [systemPrompt || undefined] *)
Definition or_undefined (v : string) : option string :=
  if String.eqb v "" then None else Some v.

(** Lines 697-717.  The values read are those of the render the handler
    was created in, that is of [s]. *)
Definition handleCreate (answer : settled) (s : State)
  : State * list effect :=
  if negb (truthy (trim (title s))) then (s, [])
  else
    let s1 := setIsCreating true s in
    let request :=
      onCreateConversation (title s) (modelId s)
        (or_undefined (systemPrompt s)) in
    let '(s2, effects) :=
      match answer with
      | Resolved =>
          (setSystemPrompt "" (setModelId None (setTitle default_title s1)),
           [request; onOpenChange false])
      | Rejected error =>
          (s1,
           [request;
            toast (mkToast "创建对话失败" (error_description error)
                     (Some destructive))])
      end in
    (setIsCreating false s2, effects).

(** Line 762: [disabled={!title.trim() || isCreating}]. *)
Definition create_disabled (s : State) : bool :=
  negb (truthy (trim (title s))) || isCreating s.

(** A click on the create button reaches [handleCreate] only when the
    button is enabled. *)
Definition click_create (answer : settled) (s : State)
  : State * list effect :=
  if create_disabled s then (s, []) else handleCreate answer s.

End NewDialog.

(* ================================================================= *)
(** * DbAssistant: state and loaders (lines 773-911)

    Here each loader is a function from the world it is called in to the
    world in which it, and the load it may have started, have come to an
    end, no other load having run in between.  [Async], below, runs the
    same loaders from one [await] to the next. *)

Module Assistant.
Import Js Model.

(** The [useState] cells of lines 788-800. *)
Record State : Type := mkState {
  conversations : list Conversation;
  currentConversation : option Conversation;
  messages : list Message;
  models : list AiModel;
  preferences : option UserPreference;
  usageStats : list Usage.UsageStat;
  isLoadingConversations : bool;
  isLoadingMessages : bool;
  isLoadingModels : bool;
  isLoadingPreferences : bool;
  isLoadingUsageStats : bool
}.

(** The component state together with what the component did to the
    outside: the requests it sent, [console.error] and [toast]. *)
Record World : Type := mkWorld {
  ui : State;
  fetches : list string;
  console : list (string * thrown);
  toasts : list Toast
}.

Definition initial_state : State :=
  mkState [] None [] [] None [] true false true true false.

Definition initial_world : World := mkWorld initial_state [] [] [].

Definition update (f : State -> State) (w : World) : World :=
  mkWorld (f (ui w)) (fetches w) (console w) (toasts w).

Definition setConversations v := update (fun s =>
  mkState v (currentConversation s) (messages s) (models s)
    (preferences s) (usageStats s) (isLoadingConversations s)
    (isLoadingMessages s) (isLoadingModels s) (isLoadingPreferences s)
    (isLoadingUsageStats s)).
Definition setCurrentConversation v := update (fun s =>
  mkState (conversations s) v (messages s) (models s)
    (preferences s) (usageStats s) (isLoadingConversations s)
    (isLoadingMessages s) (isLoadingModels s) (isLoadingPreferences s)
    (isLoadingUsageStats s)).
Definition setMessages v := update (fun s =>
  mkState (conversations s) (currentConversation s) v (models s)
    (preferences s) (usageStats s) (isLoadingConversations s)
    (isLoadingMessages s) (isLoadingModels s) (isLoadingPreferences s)
    (isLoadingUsageStats s)).
Definition setModels v := update (fun s =>
  mkState (conversations s) (currentConversation s) (messages s) v
    (preferences s) (usageStats s) (isLoadingConversations s)
    (isLoadingMessages s) (isLoadingModels s) (isLoadingPreferences s)
    (isLoadingUsageStats s)).
Definition setPreferences v := update (fun s =>
  mkState (conversations s) (currentConversation s) (messages s)
    (models s) v (usageStats s) (isLoadingConversations s)
    (isLoadingMessages s) (isLoadingModels s) (isLoadingPreferences s)
    (isLoadingUsageStats s)).
Definition setUsageStats v := update (fun s =>
  mkState (conversations s) (currentConversation s) (messages s)
    (models s) (preferences s) v (isLoadingConversations s)
    (isLoadingMessages s) (isLoadingModels s) (isLoadingPreferences s)
    (isLoadingUsageStats s)).
Definition setIsLoadingConversations v := update (fun s =>
  mkState (conversations s) (currentConversation s) (messages s)
    (models s) (preferences s) (usageStats s) v
    (isLoadingMessages s) (isLoadingModels s) (isLoadingPreferences s)
    (isLoadingUsageStats s)).
Definition setIsLoadingMessages v := update (fun s =>
  mkState (conversations s) (currentConversation s) (messages s)
    (models s) (preferences s) (usageStats s) (isLoadingConversations s)
    v (isLoadingModels s) (isLoadingPreferences s)
    (isLoadingUsageStats s)).
Definition setIsLoadingModels v := update (fun s =>
  mkState (conversations s) (currentConversation s) (messages s)
    (models s) (preferences s) (usageStats s) (isLoadingConversations s)
    (isLoadingMessages s) v (isLoadingPreferences s)
    (isLoadingUsageStats s)).
Definition setIsLoadingPreferences v := update (fun s =>
  mkState (conversations s) (currentConversation s) (messages s)
    (models s) (preferences s) (usageStats s) (isLoadingConversations s)
    (isLoadingMessages s) (isLoadingModels s) v
    (isLoadingUsageStats s)).
Definition setIsLoadingUsageStats v := update (fun s =>
  mkState (conversations s) (currentConversation s) (messages s)
    (models s) (preferences s) (usageStats s) (isLoadingConversations s)
    (isLoadingMessages s) (isLoadingModels s) (isLoadingPreferences s)
    v).

Definition fetch (url : string) (w : World) : World :=
  mkWorld (ui w) (fetches w ++ [url]) (console w) (toasts w).
Definition console_error (label : string) (e : thrown) (w : World)
  : World :=
  mkWorld (ui w) (fetches w) (console w ++ [(label, e)]) (toasts w).
Definition toast (t : Toast) (w : World) : World :=
  mkWorld (ui w) (fetches w) (console w) (toasts w ++ [t]).

(** How a [GET] with a JSON body of type [D] ends. *)
Inductive fetched (D : Type) : Type :=
| Rejected (e : thrown)     (* [fetch] rejects *)
| NotOk                     (* [response.ok] is false *)
| BadJson (e : thrown)      (* [response.json()] rejects *)
| Json (data : D).

Arguments Rejected {D} e.
Arguments NotOk {D}.
Arguments BadJson {D} e.
Arguments Json {D} data.

(** The [try] block up to the parsed body: the data, or the value that
    reaches [catch]; [message] is the text of the [throw] of the
    function. *)
Definition body {D} (message : string) (r : fetched D) : D + thrown :=
  match r with
  | Rejected e => inr e
  | NotOk => inr (ErrorObject message)
  | BadJson e => inr e
  | Json data => inl data
  end.

Definition failed {D} (r : fetched D) : bool :=
  match r with Json _ => false | _ => true end.

(** What the backend answers on each endpoint. *)
Record Backend : Type := mkBackend {
  get_conversations : fetched (list Conversation);
  get_conversation : Z -> fetched (list Message);
  get_models : fetched (list AiModel);
  get_preferences : fetched (option UserPreference);
  get_usage : fetched (list Usage.UsageStat)
}.

(** The digits of an identifier in a template string: all of them, as
    a safe integer prints. *)
Definition decimal (n : Z) : string := NilZero.string_of_int (Z.to_int n).

Definition conversations_url : string := "/api/ai-assistant/conversations".
Definition conversation_url (conversationId : Z) : string :=
  "/api/ai-assistant/conversations/" ++ decimal conversationId.
Definition models_url : string := "/api/ai-assistant/models".
Definition preferences_url : string := "/api/ai-assistant/preferences".
Definition usage_url : string := "/api/ai-assistant/usage".

Definition failure_toast (title : string) (e : thrown) : Toast :=
  mkToast title (error_description e) (Some destructive).

(** Lines 834-852, from the call to the end of the [finally] block. *)
Definition loadMessages (be : Backend) (conversationId : Z) (w : World)
  : World :=
  let w := setIsLoadingMessages true w in
  let w := fetch (conversation_url conversationId) w in
  let w :=
    match body "加载对话消息失败" (get_conversation be conversationId) with
    | inl data => setMessages data w
    | inr error =>
        let w := console_error "加载对话消息失败:" error w in
        toast (failure_toast "加载对话消息失败" error) w
    end in
  setIsLoadingMessages false w.

(** Lines 807-831.  [currentConversation] is the value of the render the
    function was created in, that is of the world it starts from.  The
    call of [loadMessages] is not awaited: in the component its first
    two steps run before the [finally] block and the rest after it, with
    [isLoadingMessages] on in between.  This function gives the world
    once both loads are over, which is the same whether the [finally]
    block comes before or after the rest of [loadMessages]. *)
Definition loadConversations (be : Backend) (w0 : World) : World :=
  let w := setIsLoadingConversations true w0 in
  let w := fetch conversations_url w in
  let w :=
    match body "加载对话列表失败" (get_conversations be) with
    | inl data =>
        let w := setConversations data w in
        match data, currentConversation (ui w0) with
        | first :: _, None =>
            let w := setCurrentConversation (Some first) w in
            loadMessages be (id first) w
        | _, _ => w
        end
    | inr error =>
        let w := console_error "加载对话列表失败:" error w in
        toast (failure_toast "加载对话列表失败" error) w
    end in
  setIsLoadingConversations false w.

(** Lines 855-873. *)
Definition loadModels (be : Backend) (w : World) : World :=
  let w := setIsLoadingModels true w in
  let w := fetch models_url w in
  let w :=
    match body "加载AI模型失败" (get_models be) with
    | inl data => setModels data w
    | inr error =>
        let w := console_error "加载AI模型失败:" error w in
        toast (failure_toast "加载AI模型失败" error) w
    end in
  setIsLoadingModels false w.

(** Lines 876-890: the [catch] block logs and shows nothing. *)
Definition loadPreferences (be : Backend) (w : World) : World :=
  let w := setIsLoadingPreferences true w in
  let w := fetch preferences_url w in
  let w :=
    match body "加载用户偏好设置失败" (get_preferences be) with
    | inl data => setPreferences data w
    | inr error => console_error "加载用户偏好设置失败:" error w
    end in
  setIsLoadingPreferences false w.

(** Lines 893-911. *)
Definition loadUsageStats (be : Backend) (w : World) : World :=
  let w := setIsLoadingUsageStats true w in
  let w := fetch usage_url w in
  let w :=
    match body "加载使用统计失败" (get_usage be) with
    | inl data => setUsageStats data w
    | inr error =>
        let w := console_error "加载使用统计失败:" error w in
        toast (failure_toast "加载使用统计失败" error) w
    end in
  setIsLoadingUsageStats false w.

(** The five fetch operations. *)
Inductive operation : Type :=
| LoadConversations
| LoadMessages (conversationId : Z)
| LoadModels
| LoadPreferences
| LoadUsageStats.

Definition run (op : operation) (be : Backend) (w : World) : World :=
  match op with
  | LoadConversations => loadConversations be w
  | LoadMessages conversationId => loadMessages be conversationId w
  | LoadModels => loadModels be w
  | LoadPreferences => loadPreferences be w
  | LoadUsageStats => loadUsageStats be w
  end.

(** The operation's own request fails. *)
Definition fails (op : operation) (be : Backend) : bool :=
  match op with
  | LoadConversations => failed (get_conversations be)
  | LoadMessages conversationId => failed (get_conversation be conversationId)
  | LoadModels => failed (get_models be)
  | LoadPreferences => failed (get_preferences be)
  | LoadUsageStats => failed (get_usage be)
  end.

Definition endpoint (op : operation) : string :=
  match op with
  | LoadConversations => conversations_url
  | LoadMessages conversationId => conversation_url conversationId
  | LoadModels => models_url
  | LoadPreferences => preferences_url
  | LoadUsageStats => usage_url
  end.

(** The data the component holds, without the loading flags. *)
Definition held (w : World) :=
  (conversations (ui w), currentConversation (ui w), messages (ui w),
   models (ui w), preferences (ui w), usageStats (ui w)).

(** Modelled from the spec: the effect of [DbAssistant] that runs on
    mount, which is not part of the source at hand.  "On mount, fetch the
    conversation list": [loadConversations] runs from the initial
    state. *)
Definition on_mount (be : Backend) : World :=
  loadConversations be initial_world.

(** Modelled from the spec: the handler of [DbAssistant] for a click on
    a conversation of the list, which is not part of the source at hand.
    "On conversation switch, fetch that conversation's messages": the
    conversation becomes the current one and [loadMessages] runs for
    it. *)
Definition switchConversation (be : Backend) (conversation : Conversation)
    (w : World) : World :=
  loadMessages be (id conversation)
    (setCurrentConversation (Some conversation) w).

(** Modelled from the spec: the delete handler of [DbAssistant], which
    is not part of the source at hand.  "Deleting a conversation removes
    exactly one item from the list and, if it was selected, clears the
    message view."  The item is the one the delete button belongs to,
    found by its identifier. *)
Definition deleteConversation (conversationId : Z) (w : World) : World :=
  let was_selected :=
    match currentConversation (ui w) with
    | Some c => Z.eqb (id c) conversationId
    | None => false
    end in
  let w :=
    setConversations
      (filter (fun c => negb (Z.eqb (id c) conversationId))
         (conversations (ui w))) w in
  if was_selected then setMessages [] w else w.

(** Sample answers and data for the examples. *)
Definition failing_backend : Backend :=
  mkBackend NotOk (fun _ => NotOk) NotOk NotOk NotOk.

Definition sample_conversation (n : Z) (t : string) : Conversation :=
  mkConversation n 1 (ascii_text t) None None false
    "2024-01-01T00:00:00Z" "2024-01-01T00:00:00Z".

Definition sample_message (n c : Z) (text : string) : Message :=
  mkMessage n c user text None "2024-01-01T00:00:00Z".

Definition sample_backend : Backend :=
  mkBackend
    (Json [sample_conversation 7 "first"; sample_conversation 8 "second"])
    (fun c => Json [sample_message 1 c "hello"])
    (Json []) (Json None) (Json Usage.sample_rows).

Definition sample_world : World :=
  mkWorld
    (mkState
       [sample_conversation 7 "first"; sample_conversation 8 "second"]
       (Some (sample_conversation 7 "first"))
       [sample_message 1 7 "hello"; sample_message 2 7 "again"]
       [] None [] false false false false false)
    [] [] [].

End Assistant.

(* ================================================================= *)
(** * DbAssistant: the loaders, from one [await] to the next *)

Module Async.
Import Js Model Assistant.

#[local] Unset Elimination Schemes.
(** A call of an async function that stands at an [await]: the
    operation it is, and what it does, in the world as it is by then,
    when the awaited promise settles, up to its next [await] or to its
    end.  It gives the calls left waiting: itself at its next [await],
    and the calls it started and did not await. *)
Inductive suspended : Type :=
| Suspended (op : operation) (resume : World -> World * list suspended).
#[local] Set Elimination Schemes.

Definition op_of (t : suspended) : operation :=
  match t with Suspended op _ => op end.

(** The body shared by the five loaders, after the request was sent:

      try {
        const response = await fetch(url)
        if (!response.ok) throw new Error(message)
        const data = await response.json()
        use(data)
      } catch (error) { report(error) } finally { off() }

    [answer] is how the request ends; the first [await] resumes when the
    response is there or [fetch] has rejected, the second when the body
    is read. *)
Definition request {D} (op : operation) (answer : fetched D)
    (message : string) (use : D -> World -> World * list suspended)
    (report : thrown -> World -> World) (off : World -> World) : suspended :=
  Suspended op (fun w =>
    match answer with
    | Rejected error => (off (report error w), [])
    | NotOk => (off (report (ErrorObject message) w), [])
    | BadJson error =>
        (w, [Suspended op (fun w => (off (report error w), []))])
    | Json data =>
        (w, [Suspended op (fun w =>
               let '(w, started) := use data w in (off w, started))])
    end).

(** Lines 834-852. *)
Definition loadMessages (be : Backend) (conversationId : Z) (w : World)
  : World * list suspended :=
  let w := setIsLoadingMessages true w in
  let w := fetch (conversation_url conversationId) w in
  (w,
   [request (LoadMessages conversationId)
      (get_conversation be conversationId) "加载对话消息失败"
      (fun data w => (setMessages data w, []))
      (fun error w =>
         let w := console_error "加载对话消息失败:" error w in
         toast (failure_toast "加载对话消息失败" error) w)
      (setIsLoadingMessages false)]).

(** Lines 807-831.  [currentConversation] is the value of the render the
    function was created in, that is of the world it is called in; the
    call of [loadMessages] of line 819 runs to its first [await] and is
    left waiting. *)
Definition loadConversations (be : Backend) (w0 : World)
  : World * list suspended :=
  let w := setIsLoadingConversations true w0 in
  let w := fetch conversations_url w in
  (w,
   [request LoadConversations (get_conversations be) "加载对话列表失败"
      (fun data w =>
         let w := setConversations data w in
         match data, currentConversation (ui w0) with
         | first :: _, None =>
             let w := setCurrentConversation (Some first) w in
             loadMessages be (id first) w
         | _, _ => (w, [])
         end)
      (fun error w =>
         let w := console_error "加载对话列表失败:" error w in
         toast (failure_toast "加载对话列表失败" error) w)
      (setIsLoadingConversations false)]).

(** Lines 855-873. *)
Definition loadModels (be : Backend) (w : World) : World * list suspended :=
  let w := setIsLoadingModels true w in
  let w := fetch models_url w in
  (w,
   [request LoadModels (get_models be) "加载AI模型失败"
      (fun data w => (setModels data w, []))
      (fun error w =>
         let w := console_error "加载AI模型失败:" error w in
         toast (failure_toast "加载AI模型失败" error) w)
      (setIsLoadingModels false)]).

(** Lines 876-890. *)
Definition loadPreferences (be : Backend) (w : World)
  : World * list suspended :=
  let w := setIsLoadingPreferences true w in
  let w := fetch preferences_url w in
  (w,
   [request LoadPreferences (get_preferences be) "加载用户偏好设置失败"
      (fun data w => (setPreferences data w, []))
      (fun error w => console_error "加载用户偏好设置失败:" error w)
      (setIsLoadingPreferences false)]).

(** Lines 893-911. *)
Definition loadUsageStats (be : Backend) (w : World)
  : World * list suspended :=
  let w := setIsLoadingUsageStats true w in
  let w := fetch usage_url w in
  (w,
   [request LoadUsageStats (get_usage be) "加载使用统计失败"
      (fun data w => (setUsageStats data w, []))
      (fun error w =>
         let w := console_error "加载使用统计失败:" error w in
         toast (failure_toast "加载使用统计失败" error) w)
      (setIsLoadingUsageStats false)]).

Definition start (op : operation) (be : Backend) (w : World)
  : World * list suspended :=
  match op with
  | LoadConversations => loadConversations be w
  | LoadMessages conversationId => loadMessages be conversationId w
  | LoadModels => loadModels be w
  | LoadPreferences => loadPreferences be w
  | LoadUsageStats => loadUsageStats be w
  end.

(** The component between two events: its world, and the calls that
    stand at an [await]. *)
Record Running : Type := mkRunning {
  world : World;
  waiting : list suspended
}.

Definition idle (w : World) : Running := mkRunning w [].

(** An event handler or an effect calls a loader: it runs to its first
    [await]. *)
Definition call (f : World -> World * list suspended) (r : Running) : Running :=
  let '(w, started) := f (world r) in
  mkRunning w (waiting r ++ started)%list.

(** The promise that the [i]-th waiting call awaits settles: the call
    goes on to its next [await] or to its end. *)
Definition settle (i : nat) (r : Running) : Running :=
  match nth_error (waiting r) i with
  | Some (Suspended _ resume) =>
      let '(w, next) := resume (world r) in
      mkRunning w
        (firstn i (waiting r) ++ next ++ skipn (S i) (waiting r))%list
  | None => r
  end.

(** Promises settling one after the other. *)
Definition settle_all (order : list nat) (r : Running) : Running :=
  fold_left (fun r i => settle i r) order r.

End Async.

(* ================================================================= *)
(** * Numbers in the selects (lines 352, 523, 735) *)

Module JsNumber.
Import Js.

(** The numbers that turn up here: [NaN], the numbers that are
    integers, and the two infinities. *)
Inductive number : Type :=
| NaN
| Int (n : Z)
| Infinity (negative : bool).

(** The number for a mathematical integer: the nearest one, and an
    infinity from [2^1024 - 2^970] on, where the nearest would be
    [2^1024].  The two zeros are one. *)
Definition to_number (v : Z) : number :=
  let n := nearest v in
  if 2 ^ 1024 <=? Z.abs n then Infinity (v <? 0) else Int n.

(** [Number.isSafeInteger]. *)
Definition isSafeInteger (n : Z) : bool := Z.abs n <=? 2 ^ 53 - 1.

(** The value of a code unit as a digit of the radix, if it is one. *)
Definition digit (radix c : N) : option N :=
  let value :=
    if ((48 <=? c) && (c <=? 57))%N then Some (c - 48)%N
    else if ((97 <=? c) && (c <=? 122))%N then Some (c - 87)%N
    else if ((65 <=? c) && (c <=? 90))%N then Some (c - 55)%N
    else None in
  match value with
  | Some d => if (d <? radix)%N then Some d else None
  | None => None
  end.

(** The value of the longest prefix of digits, [None] when it is
    empty. *)
Fixpoint digits (radix : N) (s : text) (acc : option N) : option N :=
  match s with
  | [] => acc
  | c :: s' =>
      match digit radix c with
      | Some d =>
          digits radix s'
            (Some (radix * match acc with Some a => a | None => 0 end
                   + d)%N)
      | None => acc
      end
  end.

(** [Number.parseInt(string)], without a radix: leading white space, a
    sign, [0x] or [0X] for radix 16, then the digits up to the first
    code unit that is none.  [mathInt] is the integer these stand for,
    which [parseInt] gives as a number.  (Past twenty significant
    digits an engine may read the further digits as zeros.) *)
Definition mathInt (string : text) : option Z :=
  let s := trimStart string in
  let '(negative, s) :=
    match s with
    | c :: s' =>
        if (c =? 45)%N then (true, s')
        else if (c =? 43)%N then (false, s')
        else (false, s)
    | [] => (false, s)
    end in
  let '(radix, s) :=
    match s with
    | c0 :: c1 :: s' =>
        if ((c0 =? 48) && ((c1 =? 120) || (c1 =? 88)))%N then (16%N, s')
        else (10%N, s)
    | _ => (10%N, s)
    end in
  match digits radix s None with
  | None => None
  | Some n => Some (if negative then - Z.of_N n else Z.of_N n)
  end.

Definition parseInt (string : text) : number :=
  match mathInt string with
  | None => NaN
  | Some v => to_number v
  end.

(** [n.toString()] of a safe integer [n]: all its digits.  (Past the
    safe integers a number prints the fewest digits that read back as
    it, and from [1e21] on in exponent form; neither is modelled.) *)
Definition toString (n : Z) : text := ascii_text (Assistant.decimal n).

(** The code units of a numeral, and the code units that are decimal
    digits. *)
Definition numeral (d : Decimal.uint) : text :=
  ascii_text (NilEmpty.string_of_uint d).

Definition decimal_digit (c : N) : Prop := (48 <= c <= 57)%N.

(** The model select of [NewConversationDialog] (lines 733-748): its
    items, and what [onValueChange] hands to [setModelId]. *)
Definition item_values (models : list Model.AiModel) : list text :=
  ascii_text "default" :: map (fun model => toString (Model.ai_id model)) models.

Definition onValueChange (value : text) : option number :=
  if truthy value then Some (parseInt value) else None.

End JsNumber.

(* ================================================================= *)
(** * AssistantSettings: saving (lines 262-337, 412, 437-487) *)

Module Settings.
Import Js Model.

(** The three providers the handlers are called for. *)
Inductive Provider : Type := openai | anthropic | gemini.

Definition provider_name (provider : Provider) : string :=
  match provider with
  | openai => "openai"
  | anthropic => "anthropic"
  | gemini => "gemini"
  end.

(** The [apiKeys] cell (lines 275-279). *)
Record ApiKeys : Type := mkApiKeys {
  key_openai : string;
  key_anthropic : string;
  key_gemini : string
}.

Definition no_keys : ApiKeys := mkApiKeys "" "" "".

(** [apiKeys[provider]] and [{ ...prev, [provider]: value }]. *)
Definition key_of (provider : Provider) (keys : ApiKeys) : string :=
  match provider with
  | openai => key_openai keys
  | anthropic => key_anthropic keys
  | gemini => key_gemini keys
  end.

Definition with_key (provider : Provider) (value : string) (prev : ApiKeys)
  : ApiKeys :=
  match provider with
  | openai => mkApiKeys value (key_anthropic prev) (key_gemini prev)
  | anthropic => mkApiKeys (key_openai prev) value (key_gemini prev)
  | gemini => mkApiKeys (key_openai prev) (key_anthropic prev) value
  end.

(** [toUpperCase] on the letters of the provider names. *)
Definition upper (c : ascii) : ascii :=
  let n := nat_of_ascii c in
  if (Nat.leb 97 n && Nat.leb n 122)%bool then ascii_of_nat (n - 32) else c.

Fixpoint toUpperCase (s : string) : string :=
  match s with
  | EmptyString => EmptyString
  | String c s' => String (upper c) (toUpperCase s')
  end.

Section WithPreferences.

(** [Partial<UserPreference>]: the handlers below pass it along.  The
    cell of the active tab plays no part in them and is left out. *)
Variable Preferences : Type.

Record State : Type := mkState {
  localPreferences : Preferences;
  apiKeys : ApiKeys;
  isSaving : bool
}.

(** Line 274, and the effect of lines 282-286. *)
Definition init (preferences : option Preferences) (empty : Preferences)
  : State :=
  mkState (match preferences with Some p => p | None => empty end)
    no_keys false.

Definition on_preferences (preferences : option Preferences) (s : State)
  : State :=
  match preferences with
  | Some p => mkState p (apiKeys s) (isSaving s)
  | None => s
  end.

Inductive effect : Type :=
| onSavePreferences (preferences : Preferences)
| onSaveApiKey (provider : string) (apiKey : string)
| toast (t : Toast).

Definition setApiKeys (f : ApiKeys -> ApiKeys) (s : State) : State :=
  mkState (localPreferences s) (f (apiKeys s)) (isSaving s).
Definition setIsSaving (v : bool) (s : State) : State :=
  mkState (localPreferences s) (apiKeys s) v.

(** Lines 292-294. *)
Definition handleApiKeyChange (provider : Provider) (value : string)
    (s : State) : State :=
  setApiKeys (with_key provider value) s.

(** Lines 296-313. *)
Definition handleSavePreferences (answer : NewDialog.settled) (s : State)
  : State * list effect :=
  let s1 := setIsSaving true s in
  let request := onSavePreferences (localPreferences s) in
  let shown :=
    match answer with
    | NewDialog.Resolved =>
        mkToast "设置已保存" "您的偏好设置已成功保存。" None
    | NewDialog.Rejected error =>
        mkToast "保存设置失败" (error_description error) (Some destructive)
    end in
  (setIsSaving false s1, [request; toast shown]).

(** Lines 315-337. *)
Definition handleSaveApiKey (answer : NewDialog.settled)
    (provider : Provider) (s : State) : State * list effect :=
  let apiKey := key_of provider (apiKeys s) in
  if String.eqb apiKey "" then (s, [])
  else
    let s1 := setIsSaving true s in
    let request := onSaveApiKey (provider_name provider) apiKey in
    let '(s2, shown) :=
      match answer with
      | NewDialog.Resolved =>
          (setApiKeys (with_key provider "") s1,
           mkToast "API密钥已保存"
             (toUpperCase (provider_name provider) ++ " API密钥已成功保存。")
             None)
      | NewDialog.Rejected error =>
          (s1,
           mkToast "保存API密钥失败" (error_description error)
             (Some destructive))
      end in
    (setIsSaving false s2, [request; toast shown]).

(** Lines 437, 461, 485: [disabled={!apiKeys.openai || isSaving}]. *)
Definition key_button_disabled (provider : Provider) (s : State) : bool :=
  String.eqb (key_of provider (apiKeys s)) "" || isSaving s.

Definition click_save_key (answer : NewDialog.settled)
    (provider : Provider) (s : State) : State * list effect :=
  if key_button_disabled provider s then (s, [])
  else handleSaveApiKey answer provider s.

End WithPreferences.

Arguments localPreferences {Preferences} s.
Arguments apiKeys {Preferences} s.
Arguments isSaving {Preferences} s.
Arguments onSavePreferences {Preferences} preferences.
Arguments onSaveApiKey {Preferences} provider apiKey.
Arguments toast {Preferences} t.
Arguments handleApiKeyChange {Preferences} provider value s.
Arguments handleSavePreferences {Preferences} answer s.
Arguments handleSaveApiKey {Preferences} answer provider s.
Arguments key_button_disabled {Preferences} provider s.
Arguments click_save_key {Preferences} answer provider s.

End Settings.

(* ================================================================= *)
(** * Sums and selections used to state the properties *)

Definition Zsum (l : list Z) : Z := fold_right Z.add 0 l.

(** The sum as the component takes it: from zero, one [+=] after the
    other in the order of the list. *)
Definition sum_in_order (l : list Z) : Z := fold_left Js.add l 0.

Definition rows_of_date (d : string) (rows : list Usage.UsageStat)
  : list Usage.UsageStat :=
  filter (fun r => String.eqb (Usage.date r) d) rows.

Definition rows_of_model (k : string) (rows : list Usage.UsageStat)
  : list Usage.UsageStat :=
  filter (fun r => String.eqb (Usage.modelKey r) k) rows.

(** The bucket of a date in the output, and the totals read from it. *)
Definition bucket_of (d : string) (out : list Usage.DateBucket)
  : option Usage.DateBucket :=
  find (fun b => String.eqb (Usage.bucket_date b) d) out.

Definition date_totals (out : list Usage.DateBucket) (d : string)
  : option (Z * Z) :=
  option_map (fun b => (Usage.totalTokens b, Usage.totalRequests b))
    (bucket_of d out).

Definition model_totals (out : list Usage.DateBucket) (d k : string)
  : option (Z * Z) :=
  match bucket_of d out with
  | Some b =>
      option_map (fun m => (Usage.tokens m, Usage.requests m))
        (Js.get_own k (Usage.models b))
  | None => None
  end.

(** Counts whose magnitudes add up to at most [2^53]: whichever of
    them are added, in whichever order, no addition rounds. *)
Definition magnitude (f : Usage.UsageStat -> Z)
    (rows : list Usage.UsageStat) : Z :=
  Zsum (map (fun r => Z.abs (f r)) rows).

Definition exact_counts (rows : list Usage.UsageStat) : Prop :=
  magnitude Usage.tokens_used rows <= 2 ^ 53
  /\ magnitude Usage.request_count rows <= 2 ^ 53.

(** What the accumulator of the reducer holds once [rows] went through
    it: per date the sums over the rows of that date, per model key of a
    date the sums over the rows of that date and key.  [sum] is the sum
    meant: [sum_in_order], or the exact [Zsum]. *)
Definition entry_ok (sum : list Z -> Z) (rs : list Usage.UsageStat)
    (k : string) (m : Usage.ModelEntry) : Prop :=
  In k (map Usage.modelKey rs) /\
  Usage.tokens m = sum (map Usage.tokens_used (rows_of_model k rs)) /\
  Usage.requests m = sum (map Usage.request_count (rows_of_model k rs)).

Definition models_ok (sum : list Z -> Z) (rs : list Usage.UsageStat)
    (ms : Js.object Usage.ModelEntry) : Prop :=
  NoDup (Js.keys ms) /\
  forall k, match Js.get_own k ms with
            | Some m => entry_ok sum rs k m
            | None => ~ In k (map Usage.modelKey rs)
            end.

Definition bucket_ok (sum : list Z -> Z) (rows : list Usage.UsageStat)
    (d : string) (b : Usage.DateBucket) : Prop :=
  In d (map Usage.date rows) /\
  Usage.bucket_date b = d /\
  Usage.totalTokens b
    = sum (map Usage.tokens_used (rows_of_date d rows)) /\
  Usage.totalRequests b
    = sum (map Usage.request_count (rows_of_date d rows)) /\
  models_ok sum (rows_of_date d rows) (Usage.models b).

Definition grouped_ok (sum : list Z -> Z) (rows : list Usage.UsageStat)
    (acc : Js.object Usage.DateBucket) : Prop :=
  NoDup (Js.keys acc) /\
  forall d, match Js.get_own d acc with
            | Some b => bucket_ok sum rows d b
            | None => ~ In d (map Usage.date rows)
            end.

(** The totals of a bucket of the output and of its entries, as sums
    over the rows of its date. *)
Definition bucket_sums (sum : list Z -> Z) (rows : list Usage.UsageStat)
    (b : Usage.DateBucket) : Prop :=
  let rs := rows_of_date (Usage.bucket_date b) rows in
  Usage.totalTokens b = sum (map Usage.tokens_used rs)
  /\ Usage.totalRequests b = sum (map Usage.request_count rs)
  /\ forall k m, In (k, m) (Usage.models b) ->
       Usage.tokens m = sum (map Usage.tokens_used (rows_of_model k rs))
       /\ Usage.requests m
          = sum (map Usage.request_count (rows_of_model k rs)).

(** Dates that [Date] accepts, and the order of the output: a bucket
    stands before every bucket of an earlier or equal time. *)
Definition is_date (getTime : string -> option Z) (d : string) : Prop :=
  getTime d <> None.

Definition date_desc (getTime : string -> option Z)
    (a b : Usage.DateBucket) : Prop :=
  match getTime (Usage.bucket_date a), getTime (Usage.bucket_date b) with
  | Some ta, Some tb => tb <= ta
  | _, _ => False
  end.

(** Whether a key contains the dash that joins provider and model. *)
Fixpoint has_dash (s : string) : bool :=
  match s with
  | EmptyString => false
  | String c s' => Ascii.eqb c "-"%char || has_dash s'
  end.

(** The label of a model entry: the name and the provider of the first
    row that went into it. *)
Definition label_ok (rs : list Usage.UsageStat) (k : string)
    (m : Usage.ModelEntry) : Prop :=
  match rows_of_model k rs with
  | r :: _ =>
      Usage.name m = Usage.model_name r
      /\ Usage.entry_provider m = Usage.provider r
  | [] => False
  end.

Definition labels_ok (rs : list Usage.UsageStat)
    (ms : Js.object Usage.ModelEntry) : Prop :=
  forall k m, Js.get_own k ms = Some m -> label_ok rs k m.

Definition grouped_labels_ok (rows : list Usage.UsageStat)
    (acc : Js.object Usage.DateBucket) : Prop :=
  forall d b, Js.get_own d acc = Some b ->
              labels_ok (rows_of_date d rows) (Usage.models b).

(** Line 648: the React key of a model line. *)
Definition line_key (m : Usage.ModelEntry) : string :=
  Usage.entry_provider m ++ "-" ++ Usage.name m.

(** The loading flag that an operation of [DbAssistant] drives. *)
Definition loading (op : Assistant.operation) (s : Assistant.State) : bool :=
  match op with
  | Assistant.LoadConversations => Assistant.isLoadingConversations s
  | Assistant.LoadMessages _ => Assistant.isLoadingMessages s
  | Assistant.LoadModels => Assistant.isLoadingModels s
  | Assistant.LoadPreferences => Assistant.isLoadingPreferences s
  | Assistant.LoadUsageStats => Assistant.isLoadingUsageStats s
  end.



(** Rows for the examples: three days one of which [Date] does not
    read, and rows of one day with a count of [2^53]. *)
Definition rows_with_unknown_date : list Usage.UsageStat :=
  [ Usage.mkUsageStat "2024-01-01" 1 1 "gpt-4" "openai";
    Usage.mkUsageStat "unknown" 1 1 "gpt-4" "openai";
    Usage.mkUsageStat "2024-01-02" 1 1 "gpt-4" "openai" ].

Definition large_rows_first : list Usage.UsageStat :=
  [ Usage.mkUsageStat "2024-01-01" (2 ^ 53) 1 "gpt-4" "openai";
    Usage.mkUsageStat "2024-01-01" 1 1 "gpt-4" "openai";
    Usage.mkUsageStat "2024-01-01" 1 1 "gpt-4" "openai" ].

Definition large_rows_last : list Usage.UsageStat :=
  [ Usage.mkUsageStat "2024-01-01" 1 1 "gpt-4" "openai";
    Usage.mkUsageStat "2024-01-01" 1 1 "gpt-4" "openai";
    Usage.mkUsageStat "2024-01-01" (2 ^ 53) 1 "gpt-4" "openai" ].

Definition large_rows_of_two_models : list Usage.UsageStat :=
  [ Usage.mkUsageStat "2024-01-01" (2 ^ 53) 1 "gpt-4" "openai";
    Usage.mkUsageStat "2024-01-01" 1 1 "claude" "anthropic";
    Usage.mkUsageStat "2024-01-01" 1 1 "claude" "anthropic" ].

(** Further sample data for the examples: two rows of one day whose
    provider and model differ and join to the same key, one more row for
    the sample rows, a model, and a settings panel with two keys
    typed. *)
Definition joined_rows : list Usage.UsageStat :=
  [ Usage.mkUsageStat "2024-01-01" 5 1 "c" "a-b";
    Usage.mkUsageStat "2024-01-01" 7 2 "b-c" "a" ].

Definition joined_sorted : list Usage.DateBucket :=
  Eval vm_compute in
    match Usage.sortedStats Usage.sample_getTime joined_rows with
    | Js.Returns out => out
    | Js.Throws _ => []
    end.

Definition one_more_row : Usage.UsageStat :=
  Usage.mkUsageStat "2024-01-02" 3 1 "gpt-4" "openai".

Definition sample_sorted_more : list Usage.DateBucket :=
  Eval vm_compute in
    match Usage.sortedStats Usage.sample_getTime
            (Usage.sample_rows ++ [one_more_row]) with
    | Js.Returns out => out
    | Js.Throws _ => []
    end.

Definition sample_model : Model.AiModel :=
  Model.mkAiModel 12 "GPT-4" "openai" "gpt-4" None true
    "2024-01-01T00:00:00Z" "2024-01-01T00:00:00Z".

Definition typed_settings : Settings.State unit :=
  Settings.mkState unit tt (Settings.mkApiKeys "sk-1" "" "k-3") false.

(* ================================================================= *)
(** * Facts about objects, enumeration and sorting *)

Section ObjectFacts.
Import Js.
Context {V : Type}.
Implicit Types (o : object V) (k : string) (v : V).

Lemma get_own_None k o : get_own k o = None <-> ~ In k (keys o).
Proof.
  induction o as [|[k' v'] o IH]; simpl.
  - tauto.
  - destruct (String.eqb_spec k k') as [->|Hne].
    + split; [discriminate | intros H; exfalso; apply H; now left].
    + rewrite IH. split; intros H; [intros [E|E]; [congruence|tauto] | tauto].
Qed.

Lemma get_own_Some_In k v o : get_own k o = Some v -> In (k, v) o.
Proof.
  induction o as [|[k' v'] o IH]; simpl; [discriminate|].
  destruct (String.eqb_spec k k') as [->|Hne]; intros H.
  - injection H as ->. now left.
  - right. auto.
Qed.

Lemma In_get_own k v o : NoDup (keys o) -> In (k, v) o -> get_own k o = Some v.
Proof.
  induction o as [|[k' v'] o IH]; simpl; [tauto|].
  intros Hnd [E|Hin]; inversion Hnd as [|? ? Hnotin Hnd']; subst.
  - injection E as -> ->. now rewrite String.eqb_refl.
  - destruct (String.eqb_spec k k') as [->|Hne]; [|auto].
    exfalso. apply Hnotin. apply (in_map fst) in Hin. exact Hin.
Qed.

Lemma get_own_set_same k v o : get_own k (set_own k v o) = Some v.
Proof.
  induction o as [|[k' v'] o IH]; simpl.
  - now rewrite String.eqb_refl.
  - destruct (String.eqb_spec k k') as [->|Hne]; simpl.
    + now rewrite String.eqb_refl.
    + destruct (String.eqb_spec k k'); [congruence|exact IH].
Qed.

Lemma get_own_set_other k k' v o :
  k <> k' -> get_own k' (set_own k v o) = get_own k' o.
Proof.
  intros Hne. induction o as [|[k0 v0] o IH]; simpl.
  - destruct (String.eqb_spec k' k); [congruence|reflexivity].
  - destruct (String.eqb_spec k k0) as [->|Hne0]; simpl.
    + destruct (String.eqb_spec k' k0); [congruence|reflexivity].
    + now rewrite IH.
Qed.

Lemma keys_set_present k v o :
  In k (keys o) -> keys (set_own k v o) = keys o.
Proof.
  induction o as [|[k0 v0] o IH]; simpl; [tauto|].
  intros Hin. destruct (String.eqb_spec k k0) as [->|Hne]; simpl.
  - reflexivity.
  - f_equal. apply IH. destruct Hin; congruence.
Qed.

Lemma keys_set_absent k v o :
  ~ In k (keys o) -> keys (set_own k v o) = (keys o ++ [k])%list.
Proof.
  induction o as [|[k0 v0] o IH]; simpl; [reflexivity|].
  intros Hnin. destruct (String.eqb_spec k k0) as [->|Hne]; simpl.
  - exfalso. apply Hnin. now left.
  - f_equal. apply IH. tauto.
Qed.

Lemma NoDup_keys_set k v o : NoDup (keys o) -> NoDup (keys (set_own k v o)).
Proof.
  intros Hnd. destruct (in_dec string_dec k (keys o)) as [Hin|Hnin].
  - now rewrite keys_set_present.
  - rewrite keys_set_absent by assumption.
    apply NoDup_app; [exact Hnd | repeat constructor; simpl; tauto |].
    intros a Ha [<-|[]]. contradiction.
Qed.

Lemma In_keys_set k k' v o :
  In k' (keys (set_own k v o)) <-> k' = k \/ In k' (keys o).
Proof.
  destruct (in_dec string_dec k (keys o)) as [Hin|Hnin].
  - rewrite keys_set_present by assumption.
    split; [tauto | intros [->|H]; assumption].
  - rewrite keys_set_absent by assumption.
    rewrite in_app_iff. simpl. split; intros H; intuition congruence.
Qed.

End ObjectFacts.

Section EnumerationFacts.
Import Js.
Context {V : Type}.

Lemma insert_by_index_perm (p : string * V) (l : object V) :
  Permutation (insert_by_index p l) (p :: l).
Proof.
  induction l as [|q l IH]; simpl; [reflexivity|].
  destruct (index_of p <=? index_of q)%N; [reflexivity|].
  rewrite IH. apply perm_swap.
Qed.

Lemma sort_by_index_perm (l : object V) :
  Permutation (fold_right insert_by_index [] l) l.
Proof.
  induction l as [|p l IH]; simpl; [reflexivity|].
  rewrite insert_by_index_perm. now constructor.
Qed.

Lemma filter_split_perm {A} (f : A -> bool) (l : list A) :
  Permutation (filter f l ++ filter (fun a => negb (f a)) l) l.
Proof.
  induction l as [|a l IH]; simpl; [reflexivity|].
  destruct (f a); simpl.
  - now constructor.
  - rewrite <- Permutation_middle. now constructor.
Qed.

Lemma own_enumerable_perm (o : object V) : Permutation (own_enumerable o) o.
Proof.
  unfold own_enumerable.
  rewrite sort_by_index_perm. apply filter_split_perm.
Qed.

Lemma Object_values_perm (o : object V) :
  Permutation (Object_values o) (map snd o).
Proof. unfold Object_values. apply Permutation_map, own_enumerable_perm. Qed.

End EnumerationFacts.

Section SortFacts.
Import Js.
Context {A : Type} (comparefn : A -> A -> Z).

Lemma sort_insert_perm (x : A) (l : list A) :
  Permutation (sort_insert comparefn x l) (x :: l).
Proof.
  induction l as [|y l IH]; simpl; [reflexivity|].
  destruct (comparefn x y <=? 0); [reflexivity|].
  rewrite IH. apply perm_swap.
Qed.

Lemma Array_sort_perm (l : list A) : Permutation (Array_sort comparefn l) l.
Proof.
  induction l as [|x l IH]; simpl; [reflexivity|].
  rewrite sort_insert_perm. now constructor.
Qed.

(** The sort orders its input by any transitive relation [R] that the
    comparator decides on the elements at hand. *)
Variables (R : A -> A -> Prop) (P : A -> Prop).
Hypothesis R_trans : forall a b c, R a b -> R b c -> R a c.
Hypothesis R_le : forall a b, P a -> P b -> comparefn a b <= 0 -> R a b.
Hypothesis R_gt : forall a b, P a -> P b -> 0 < comparefn a b -> R b a.

Lemma sort_insert_sorted (x : A) (l : list A) :
  P x -> Forall P l -> StronglySorted R l ->
  StronglySorted R (sort_insert comparefn x l).
Proof.
  intros Px. induction l as [|y l IH]; intros HP Hs; simpl.
  - repeat constructor.
  - apply Forall_cons_iff in HP as [Py HP].
    apply StronglySorted_inv in Hs as [Hs Hy].
    destruct (Z.leb_spec (comparefn x y) 0) as [Hle|Hgt].
    + constructor; [now constructor|].
      assert (Rxy : R x y) by auto.
      constructor; [exact Rxy|].
      eapply Forall_impl; [|exact Hy]. intros z Ryz. eauto.
    + constructor; [auto|].
      eapply Permutation_Forall.
      * symmetry. apply sort_insert_perm.
      * constructor; auto.
Qed.

Lemma Array_sort_sorted (l : list A) :
  Forall P l -> StronglySorted R (Array_sort comparefn l).
Proof.
  induction l as [|x l IH]; intros HP; simpl; [constructor|].
  apply Forall_cons_iff in HP as [Px HP].
  apply sort_insert_sorted; auto.
  eapply Permutation_Forall; [symmetry; apply Array_sort_perm|exact HP].
Qed.

End SortFacts.

Section KeyFacts.
Import Js.

Lemma has_dash_modelKey (r : Usage.UsageStat) :
  has_dash (Usage.modelKey r) = true.
Proof.
  unfold Usage.modelKey.
  induction (Usage.provider r) as [|c p IH]; simpl in *; [reflexivity|].
  rewrite IH. apply orb_true_r.
Qed.

Lemma inherited_spec (k : string) :
  inherited k = true <-> In k Object_prototype_names.
Proof.
  unfold inherited. rewrite existsb_exists. split.
  - intros [x [Hin Heq]]. apply String.eqb_eq in Heq. now subst.
  - intros Hin. exists k. split; [exact Hin|apply String.eqb_refl].
Qed.

End KeyFacts.

(** A goal about an inherited name is settled name by name. *)
Ltac by_inherited_name H :=
  apply inherited_spec in H;
  unfold Js.Object_prototype_names in H; simpl in H;
  repeat (destruct H as [<-|H]; [reflexivity|]);
  destruct H.

Section ModelKeyFacts.
Import Js.

Lemma inherited_no_dash (k : string) :
  inherited k = true -> has_dash k = false.
Proof. intros H. by_inherited_name H. Qed.

(** A model key contains a dash, no inherited name does: the lookups in
    [models] only ever see own properties. *)
Lemma modelKey_not_inherited (r : Usage.UsageStat) :
  inherited (Usage.modelKey r) = false.
Proof.
  destruct (inherited (Usage.modelKey r)) eqn:E; [|reflexivity].
  apply inherited_no_dash in E. rewrite has_dash_modelKey in E.
  discriminate.
Qed.

End ModelKeyFacts.

(* ================================================================= *)
(** * Sums of numbers *)

Section NumberSums.
Import Js.

(** Up to [2^53] in magnitude every integer is a number. *)
Lemma nearest_exact (n : Z) : Z.abs n <= 2 ^ 53 -> nearest n = n.
Proof.
  intros Hn. unfold nearest.
  assert (Hm : nearest_magnitude (Z.abs n) = Z.abs n).
  { unfold nearest_magnitude.
    destruct (Z.eq_dec (Z.abs n) (2 ^ 53)) as [->|Hne]; [reflexivity|].
    destruct (Z.eq_dec (Z.abs n) 0) as [->|Hz]; [reflexivity|].
    assert (Hlog : Z.log2 (Z.abs n) < 53) by (apply Z.log2_lt_pow2; lia).
    destruct (Z.leb_spec (Z.log2 (Z.abs n) - 52) 0); [reflexivity|lia]. }
  rewrite Hm. destruct n; simpl; lia.
Qed.

Lemma add_exact (a b : Z) : Z.abs (a + b) <= 2 ^ 53 -> add a b = a + b.
Proof. apply nearest_exact. Qed.

Lemma Zsum_app (l l' : list Z) : Zsum (l ++ l') = Zsum l + Zsum l'.
Proof. induction l as [|x l IH]; simpl; [reflexivity|]. rewrite IH. lia. Qed.

Lemma Zsum_abs (l : list Z) : Z.abs (Zsum l) <= Zsum (map Z.abs l).
Proof. induction l as [|x l IH]; simpl; lia. Qed.

Lemma Zsum_abs_nonneg (l : list Z) : 0 <= Zsum (map Z.abs l).
Proof. induction l as [|x l IH]; simpl; lia. Qed.

Lemma Zsum_le {B} (g h : B -> Z) (l : list B) :
  (forall x, In x l -> g x <= h x) -> Zsum (map g l) <= Zsum (map h l).
Proof.
  induction l as [|x l IH]; intros Hle; simpl; [lia|].
  pose proof (Hle x (or_introl eq_refl)).
  assert (Zsum (map g l) <= Zsum (map h l)) by (apply IH; intros; apply Hle; now right).
  lia.
Qed.

Lemma sum_in_order_snoc (l : list Z) (x : Z) :
  sum_in_order (l ++ [x]) = add (sum_in_order l) x.
Proof. unfold sum_in_order. now rewrite fold_left_app. Qed.

(** No addition rounds when the magnitudes add up to at most [2^53]. *)
Lemma sum_in_order_exact (l : list Z) :
  Zsum (map Z.abs l) <= 2 ^ 53 -> sum_in_order l = Zsum l.
Proof.
  induction l as [|x l IH] using rev_ind; intros Hl; [reflexivity|].
  rewrite map_app, Zsum_app in Hl. simpl in Hl.
  pose proof (Zsum_abs_nonneg l). pose proof (Zsum_abs l).
  rewrite sum_in_order_snoc, Zsum_app, IH by lia. simpl.
  rewrite add_exact; lia.
Qed.

Lemma fold_left_add_map {B} (g : B -> Z) (l : list B) :
  fold_left (fun sum x => add sum (g x)) l 0 = sum_in_order (map g l).
Proof.
  unfold sum_in_order. generalize 0.
  induction l as [|x l IH]; intros a; simpl; [reflexivity|apply IH].
Qed.

End NumberSums.

Section CountFacts.
Import Usage.
Implicit Types (f : UsageStat -> Z) (rows : list UsageStat).

Lemma magnitude_nonneg f rows : 0 <= magnitude f rows.
Proof. unfold magnitude. induction rows as [|r rows IH]; simpl; lia. Qed.

Lemma magnitude_app f rows rows' :
  magnitude f (rows ++ rows') = magnitude f rows + magnitude f rows'.
Proof. unfold magnitude. now rewrite map_app, Zsum_app. Qed.

Lemma magnitude_filter f (p : UsageStat -> bool) rows :
  magnitude f (filter p rows) <= magnitude f rows.
Proof.
  unfold magnitude. induction rows as [|r rows IH]; simpl; [lia|].
  destruct (p r); simpl; lia.
Qed.

Lemma magnitude_perm f rows rows' :
  Permutation rows rows' -> magnitude f rows = magnitude f rows'.
Proof. unfold magnitude. induction 1; simpl; lia. Qed.

Lemma exact_counts_filter (p : UsageStat -> bool) rows :
  exact_counts rows -> exact_counts (filter p rows).
Proof.
  intros [Ht Hq].
  pose proof (magnitude_filter tokens_used p rows).
  pose proof (magnitude_filter request_count p rows).
  split; lia.
Qed.

Lemma exact_counts_perm rows rows' :
  Permutation rows rows' -> exact_counts rows -> exact_counts rows'.
Proof.
  intros Hp [Ht Hq].
  split; rewrite <- (magnitude_perm _ _ _ Hp); assumption.
Qed.

Lemma exact_counts_without_last rows r :
  exact_counts (rows ++ [r]) -> exact_counts rows.
Proof.
  intros [Ht Hq]. rewrite magnitude_app in Ht, Hq.
  pose proof (magnitude_nonneg tokens_used [r]).
  pose proof (magnitude_nonneg request_count [r]).
  split; lia.
Qed.

Lemma sum_of_rows_exact f rows :
  magnitude f rows <= 2 ^ 53 ->
  sum_in_order (map f rows) = Zsum (map f rows).
Proof.
  intros Hm. apply sum_in_order_exact. now rewrite map_map.
Qed.

End CountFacts.

(* ================================================================= *)
(** * The grouping reduction *)

Section GroupingFacts.
Import Js Usage.

Lemma rows_of_model_snoc k rs r :
  rows_of_model k (rs ++ [r])
  = (rows_of_model k rs
     ++ if String.eqb (modelKey r) k then [r] else [])%list.
Proof. unfold rows_of_model. rewrite filter_app. reflexivity. Qed.

Lemma rows_of_date_snoc d rs r :
  rows_of_date d (rs ++ [r])
  = (rows_of_date d rs ++ if String.eqb (date r) d then [r] else [])%list.
Proof. unfold rows_of_date. rewrite filter_app. reflexivity. Qed.

Lemma entry_ok_other rs r k m :
  modelKey r <> k ->
  entry_ok sum_in_order rs k m -> entry_ok sum_in_order (rs ++ [r]) k m.
Proof.
  intros Hne (Hin & Ht & Hq). unfold entry_ok.
  rewrite rows_of_model_snoc.
  destruct (String.eqb_spec (modelKey r) k); [contradiction|].
  rewrite app_nil_r, map_app, in_app_iff. auto.
Qed.

Lemma entry_ok_added rs r m :
  tokens m
    = add (sum_in_order (map tokens_used (rows_of_model (modelKey r) rs)))
        (tokens_used r) ->
  requests m
    = add (sum_in_order (map request_count (rows_of_model (modelKey r) rs)))
        (request_count r) ->
  entry_ok sum_in_order (rs ++ [r]) (modelKey r) m.
Proof.
  intros Ht Hq. unfold entry_ok.
  rewrite rows_of_model_snoc, String.eqb_refl, !map_app.
  simpl. rewrite !sum_in_order_snoc, in_app_iff. simpl.
  repeat split; [tauto|assumption|assumption].
Qed.

Lemma rows_of_model_absent k rs :
  ~ In k (map modelKey rs) -> rows_of_model k rs = [].
Proof.
  induction rs as [|r rs IH]; simpl; [reflexivity|].
  intros Hnin. destruct (String.eqb_spec (modelKey r) k); [tauto|].
  apply IH. tauto.
Qed.

Lemma add_to_models_ok rs r ms :
  models_ok sum_in_order rs ms ->
  models_ok sum_in_order (rs ++ [r]) (add_to_models r ms).
Proof.
  intros [Hnd Hget]. unfold add_to_models, get.
  rewrite modelKey_not_inherited.
  pose proof (Hget (modelKey r)) as Hk.
  destruct (get_own (modelKey r) ms) as [m|] eqn:Em.
  - (* the entry exists *)
    rewrite Em. split; [now apply NoDup_keys_set|].
    intros k. destruct (string_dec (modelKey r) k) as [<-|Hne].
    + rewrite get_own_set_same. destruct Hk as (_ & Ht & Hq).
      apply entry_ok_added; simpl; congruence.
    + rewrite get_own_set_other by assumption.
      specialize (Hget k). destruct (get_own k ms).
      * now apply entry_ok_other.
      * rewrite map_app, in_app_iff. simpl. intuition congruence.
  - (* the entry is created, then updated *)
    rewrite get_own_set_same.
    split; [now do 2 apply NoDup_keys_set|].
    intros k. destruct (string_dec (modelKey r) k) as [<-|Hne].
    + rewrite get_own_set_same.
      apply entry_ok_added; simpl;
        now rewrite rows_of_model_absent by assumption.
    + rewrite !get_own_set_other by assumption.
      specialize (Hget k). destruct (get_own k ms).
      * now apply entry_ok_other.
      * rewrite map_app, in_app_iff. simpl. intuition congruence.
Qed.

Lemma models_ok_nil sum : models_ok sum [] [].
Proof. split; [constructor|]. intros k. simpl. tauto. Qed.

Lemma rows_of_date_absent d rows :
  ~ In d (map date rows) -> rows_of_date d rows = [].
Proof.
  induction rows as [|r rows IH]; simpl; [reflexivity|].
  intros Hnin. destruct (String.eqb_spec (date r) d); [tauto|].
  apply IH. tauto.
Qed.

Lemma bucket_ok_other rows r d b :
  date r <> d ->
  bucket_ok sum_in_order rows d b -> bucket_ok sum_in_order (rows ++ [r]) d b.
Proof.
  intros Hne (Hin & Hd & Ht & Hq & Hm). unfold bucket_ok.
  rewrite rows_of_date_snoc.
  destruct (String.eqb_spec (date r) d); [contradiction|].
  rewrite app_nil_r, map_app, in_app_iff. auto.
Qed.

Lemma bucket_ok_added rows r b :
  bucket_date b = date r ->
  totalTokens b
    = add (sum_in_order (map tokens_used (rows_of_date (date r) rows)))
        (tokens_used r) ->
  totalRequests b
    = add (sum_in_order (map request_count (rows_of_date (date r) rows)))
        (request_count r) ->
  models_ok sum_in_order (rows_of_date (date r) rows ++ [r]) (models b) ->
  bucket_ok sum_in_order (rows ++ [r]) (date r) b.
Proof.
  intros Hd Ht Hq Hm. unfold bucket_ok.
  rewrite rows_of_date_snoc, String.eqb_refl, !map_app.
  simpl. rewrite !sum_in_order_snoc, in_app_iff. simpl.
  split; [tauto|]. split; [exact Hd|].
  split; [exact Ht|]. split; [exact Hq|exact Hm].
Qed.

(** One turn of the reducer on a date that is not an inherited name. *)
Lemma group_step_ok rows r acc :
  inherited (date r) = false ->
  grouped_ok sum_in_order rows acc ->
  exists acc', group_step acc r = Returns acc'
               /\ grouped_ok sum_in_order (rows ++ [r]) acc'.
Proof.
  intros Hinh [Hnd Hget]. unfold group_step, get. rewrite Hinh.
  pose proof (Hget (date r)) as Hk.
  assert (Hrest : forall acc0 b0 k,
    date r <> k -> get_own k acc0 = get_own k acc ->
    match get_own k (set_own (date r) b0 acc0) with
    | Some b => bucket_ok sum_in_order (rows ++ [r]) k b
    | None => ~ In k (map date (rows ++ [r]))
    end).
  { intros acc0 b0 k Hne Hsame.
    rewrite get_own_set_other, Hsame by assumption.
    specialize (Hget k). destruct (get_own k acc).
    - now apply bucket_ok_other.
    - rewrite map_app, in_app_iff. simpl. intuition congruence. }
  destruct (get_own (date r) acc) as [b|] eqn:Eb.
  - rewrite Eb. eexists. split; [reflexivity|].
    split; [now apply NoDup_keys_set|].
    intros k. destruct (string_dec (date r) k) as [<-|Hne].
    + rewrite get_own_set_same.
      destruct Hk as (_ & Hd & Ht & Hq & Hm).
      apply bucket_ok_added; simpl; try congruence.
      now apply add_to_models_ok.
    + now apply Hrest.
  - rewrite get_own_set_same. eexists. split; [reflexivity|].
    split; [now do 2 apply NoDup_keys_set|].
    intros k. destruct (string_dec (date r) k) as [<-|Hne].
    + rewrite get_own_set_same.
      apply bucket_ok_added; simpl;
        rewrite ?rows_of_date_absent by assumption; try reflexivity.
      apply (add_to_models_ok []), models_ok_nil.
    + apply Hrest; [assumption|]. now rewrite get_own_set_other.
Qed.

Lemma reduce_snoc {A B} (f : A -> B -> completion A) l x acc :
  reduce f (l ++ [x]) acc = bind (reduce f l acc) (fun a => f a x).
Proof.
  revert acc. induction l as [|y l IH]; intros acc; simpl.
  - now destruct (f acc x).
  - destruct (f acc y); simpl; [apply IH|reflexivity].
Qed.

Lemma grouped_ok_nil sum : grouped_ok sum [] [].
Proof. split; [constructor|]. intros d. simpl. tauto. Qed.

(** The reduction returns when no date is an inherited name, and its
    result then holds the sums of the rows. *)
Lemma groupedByDate_ok rows :
  Forall (fun r => inherited (date r) = false) rows ->
  exists acc, groupedByDate rows = Returns acc
              /\ grouped_ok sum_in_order rows acc.
Proof.
  unfold groupedByDate.
  induction rows as [|r rows IH] using rev_ind; intros Hall.
  - exists []. split; [reflexivity|apply grouped_ok_nil].
  - apply Forall_app in Hall as [Hrows Hr].
    apply Forall_inv in Hr.
    destruct (IH Hrows) as (acc & Hacc & Hok).
    rewrite reduce_snoc, Hacc. simpl.
    now apply group_step_ok.
Qed.

(** It throws as soon as a date is an inherited name. *)
Lemma reduce_group_step_throws rows : forall acc,
  (forall k, In k (keys acc) -> inherited k = false) ->
  Exists (fun r => inherited (date r) = true) rows ->
  reduce group_step rows acc = Throws TypeError.
Proof.
  induction rows as [|r rows IH]; intros acc Hkeys Hex.
  - inversion Hex.
  - simpl. unfold group_step at 1. unfold get.
    destruct (inherited (date r)) eqn:Einh.
    + assert (Hnone : get_own (date r) acc = None).
      { apply get_own_None. intros Hin. apply Hkeys in Hin. congruence. }
      rewrite Hnone. rewrite Hnone. reflexivity.
    + apply Exists_cons in Hex as [Hr|Hex]; [congruence|].
      destruct (get_own (date r) acc) as [b|] eqn:Eb.
      * rewrite Eb. simpl. apply IH; [|exact Hex].
        intros k Hin. apply In_keys_set in Hin as [->|Hin]; auto.
      * rewrite get_own_set_same. simpl. apply IH; [|exact Hex].
        intros k Hin.
        apply In_keys_set in Hin as [->|Hin]; [assumption|].
        apply In_keys_set in Hin as [->|Hin]; auto.
Qed.

Lemma groupedByDate_throws rows :
  Exists (fun r => inherited (date r) = true) rows ->
  groupedByDate rows = Throws TypeError.
Proof. apply reduce_group_step_throws. intros k []. Qed.

(** Either way, nothing else happens. *)
Lemma groupedByDate_cases rows :
  (exists acc, groupedByDate rows = Returns acc
               /\ grouped_ok sum_in_order rows acc)
  \/ (groupedByDate rows = Throws TypeError
      /\ Exists (fun r => inherited (date r) = true) rows).
Proof.
  destruct (Exists_dec (fun r => inherited (date r) = true) rows) as [Hex|Hno].
  { intros r. destruct (inherited (date r)); [now left|now right]. }
  - right. split; [now apply groupedByDate_throws|exact Hex].
  - left. apply groupedByDate_ok.
    apply Forall_Exists_neg in Hno.
    eapply Forall_impl; [|exact Hno]. intros r Hr.
    now apply not_true_is_false.
Qed.

End GroupingFacts.

(* ================================================================= *)
(** * Sums over a partition by key *)

Section PartitionSums.
Context {A : Type} (key : A -> string) (f : A -> Z).

Lemma Zsum_perm (l l' : list Z) : Permutation l l' -> Zsum l = Zsum l'.
Proof. induction 1; simpl; lia. Qed.

Lemma filter_perm (p : A -> bool) (l l' : list A) :
  Permutation l l' -> Permutation (filter p l) (filter p l').
Proof.
  induction 1 as [|x l l' _ IH|x y l|l l' l'' _ IH1 _ IH2]; simpl.
  - constructor.
  - destruct (p x); [now constructor|exact IH].
  - destruct (p x), (p y); try reflexivity. apply perm_swap.
  - now transitivity (filter p l').
Qed.

Lemma Zsum_map_add {B} (g h : B -> Z) (l : list B) :
  Zsum (map (fun x => g x + h x) l) = Zsum (map g l) + Zsum (map h l).
Proof. induction l as [|x l IH]; simpl; lia. Qed.

Lemma Zsum_single (k0 : string) (x : Z) (ks : list string) :
  NoDup ks -> In k0 ks ->
  Zsum (map (fun k => if String.eqb k0 k then x else 0) ks) = x.
Proof.
  induction 1 as [|k ks Hnin Hnd IH]; simpl; [tauto|].
  intros [->|Hin].
  - rewrite String.eqb_refl.
    assert (E : Zsum (map (fun k => if String.eqb k0 k then x else 0) ks)
                = 0).
    { clear IH Hnd. induction ks as [|k ks IH]; simpl; [reflexivity|].
      destruct (String.eqb_spec k0 k) as [->|_].
      - exfalso. apply Hnin. now left.
      - rewrite IH; [reflexivity|]. intros H. apply Hnin. now right. }
    lia.
  - destruct (String.eqb_spec k0 k) as [->|_]; [contradiction|].
    now rewrite IH.
Qed.

(** Summing [f] class by class over distinct keys that cover the list
    is summing [f] over the list. *)
Lemma Zsum_by_key (ks : list string) (l : list A) :
  NoDup ks -> (forall a, In a l -> In (key a) ks) ->
  Zsum (map (fun k =>
               Zsum (map f (filter (fun a => String.eqb (key a) k) l))) ks)
  = Zsum (map f l).
Proof.
  intros Hnd. induction l as [|a l IH]; intros Hcover; simpl.
  - induction ks as [|k ks IHk]; simpl; [reflexivity|].
    apply NoDup_cons_iff in Hnd as [_ Hnd]. now rewrite IHk.
  - rewrite <- IH by (intros; apply Hcover; now right).
    rewrite <- (Zsum_single (key a) (f a) ks Hnd)
      by (apply Hcover; now left).
    rewrite <- Zsum_map_add. f_equal. apply map_ext. intros k.
    destruct (String.eqb (key a) k); simpl; lia.
Qed.

End PartitionSums.

(* ================================================================= *)
(** * What the grouped object and the sorted array hold *)

Section GroupedFacts.
Import Js Usage.
Context {sum : list Z -> Z}.

Lemma grouped_ok_entry rows acc d b :
  grouped_ok sum rows acc -> In (d, b) acc -> bucket_ok sum rows d b.
Proof.
  intros [Hnd Hget] Hin. apply In_get_own in Hin; [|exact Hnd].
  specialize (Hget d). now rewrite Hin in Hget.
Qed.

Lemma grouped_ok_dates rows acc :
  grouped_ok sum rows acc -> map bucket_date (map snd acc) = keys acc.
Proof.
  intros Hok. unfold keys. rewrite map_map. apply map_ext_in.
  intros [d b] Hin. simpl.
  now destruct (grouped_ok_entry _ _ _ _ Hok Hin) as (_ & Hd & _).
Qed.

Lemma grouped_ok_keys rows acc d :
  grouped_ok sum rows acc -> In d (keys acc) <-> In d (map date rows).
Proof.
  intros [Hnd Hget]. specialize (Hget d).
  destruct (get_own d acc) as [b|] eqn:E.
  - destruct Hget as (Hin & _). split; [auto|]. intros _.
    apply get_own_Some_In in E. apply (in_map fst) in E. exact E.
  - apply get_own_None in E. tauto.
Qed.

Lemma models_ok_keys rs ms k :
  models_ok sum rs ms -> In k (keys ms) <-> In k (map modelKey rs).
Proof.
  intros [Hnd Hget]. specialize (Hget k).
  destruct (get_own k ms) as [m|] eqn:E.
  - destruct Hget as (Hin & _). split; [auto|]. intros _.
    apply get_own_Some_In in E. apply (in_map fst) in E. exact E.
  - apply get_own_None in E. tauto.
Qed.

Lemma models_ok_entry rs ms k m :
  models_ok sum rs ms -> In (k, m) ms -> entry_ok sum rs k m.
Proof.
  intros [Hnd Hget] Hin. apply In_get_own in Hin; [|exact Hnd].
  specialize (Hget k). now rewrite Hin in Hget.
Qed.

Lemma bucket_ok_sums rows b :
  bucket_ok sum rows (bucket_date b) b -> bucket_sums sum rows b.
Proof.
  intros (_ & _ & Ht & Hq & Hm).
  split; [exact Ht|]. split; [exact Hq|].
  intros k m Hkm. now destruct (models_ok_entry _ _ _ _ Hm Hkm).
Qed.

End GroupedFacts.

(** With exact counts the sums taken in order are the sums. *)
Section ExactSums.
Import Js Usage.

Lemma entry_ok_exact rs k m :
  exact_counts rs -> entry_ok sum_in_order rs k m -> entry_ok Zsum rs k m.
Proof.
  intros Hexact (Hin & Ht & Hq).
  destruct (exact_counts_filter (fun r => String.eqb (modelKey r) k) rs Hexact)
    as [Hmt Hmq].
  split; [exact Hin|].
  unfold rows_of_model in *.
  now rewrite Ht, Hq, !sum_of_rows_exact.
Qed.

Lemma models_ok_exact rs ms :
  exact_counts rs -> models_ok sum_in_order rs ms -> models_ok Zsum rs ms.
Proof.
  intros Hexact [Hnd Hget]. split; [exact Hnd|].
  intros k. specialize (Hget k). destruct (get_own k ms); [|exact Hget].
  now apply entry_ok_exact.
Qed.

Lemma bucket_ok_exact rows d b :
  exact_counts rows ->
  bucket_ok sum_in_order rows d b -> bucket_ok Zsum rows d b.
Proof.
  intros Hexact (Hin & Hd & Ht & Hq & Hm).
  pose proof (exact_counts_filter (fun r => String.eqb (date r) d) rows Hexact)
    as Hd_exact.
  destruct Hd_exact as [Hmt Hmq].
  split; [exact Hin|]. split; [exact Hd|].
  unfold rows_of_date in *.
  rewrite Ht, Hq, !sum_of_rows_exact by assumption.
  split; [reflexivity|]. split; [reflexivity|].
  apply models_ok_exact; [split; assumption|exact Hm].
Qed.

Lemma grouped_ok_exact rows acc :
  exact_counts rows ->
  grouped_ok sum_in_order rows acc -> grouped_ok Zsum rows acc.
Proof.
  intros Hexact [Hnd Hget]. split; [exact Hnd|].
  intros d. specialize (Hget d). destruct (get_own d acc); [|exact Hget].
  now apply bucket_ok_exact.
Qed.

End ExactSums.

Section OutputFacts.
Import Js Usage.
Variable getTime : string -> option Z.

Lemma sortedStats_cases rows :
  (exists acc, groupedByDate rows = Returns acc
               /\ grouped_ok sum_in_order rows acc
               /\ sortedStats getTime rows
                  = Returns (Array_sort (compare_dates getTime)
                               (Object_values acc)))
  \/ (sortedStats getTime rows = Throws TypeError
      /\ Exists (fun r => inherited (date r) = true) rows).
Proof.
  unfold sortedStats.
  destruct (groupedByDate_cases rows) as [(acc & Hacc & Hok)|[Hthrows Hex]].
  - left. exists acc. rewrite Hacc.
    split; [reflexivity|]. split; [exact Hok|reflexivity].
  - right. rewrite Hthrows. split; [reflexivity|exact Hex].
Qed.

(** The sorted array is the grouped object's values in another order. *)
Lemma sortedStats_inv rows out :
  sortedStats getTime rows = Returns out ->
  exists acc, groupedByDate rows = Returns acc
              /\ grouped_ok sum_in_order rows acc
              /\ Permutation out (map snd acc).
Proof.
  intros H.
  destruct (sortedStats_cases rows) as [(acc & Hacc & Hok & Hs)|[Hthrows _]].
  - rewrite Hs in H. injection H as <-.
    exists acc. split; [exact Hacc|]. split; [exact Hok|].
    rewrite Array_sort_perm. apply Object_values_perm.
  - rewrite Hthrows in H. discriminate.
Qed.

Lemma sortedStats_member rows out b :
  sortedStats getTime rows = Returns out -> In b out ->
  bucket_ok sum_in_order rows (bucket_date b) b.
Proof.
  intros H Hin. destruct (sortedStats_inv _ _ H) as (acc & _ & Hok & Hperm).
  apply (Permutation_in _ Hperm) in Hin.
  apply in_map_iff in Hin as ([d b'] & <- & Hin). simpl.
  pose proof (grouped_ok_entry _ _ _ _ Hok Hin) as Hb.
  assert (Hd : bucket_date b' = d) by apply Hb.
  rewrite Hd. exact Hb.
Qed.

Lemma sortedStats_dates rows out :
  sortedStats getTime rows = Returns out ->
  NoDup (map bucket_date out)
  /\ forall d, In d (map bucket_date out) <-> In d (map date rows).
Proof.
  intros H. destruct (sortedStats_inv _ _ H) as (acc & _ & Hok & Hperm).
  pose proof (Permutation_map bucket_date Hperm) as Hp.
  rewrite (grouped_ok_dates _ _ Hok) in Hp. split.
  - apply (Permutation_NoDup (Permutation_sym Hp)). apply Hok.
  - intros d. rewrite <- (grouped_ok_keys rows acc d Hok).
    split; apply Permutation_in; [exact Hp|now symmetry].
Qed.

Lemma bucket_of_spec rows out d :
  sortedStats getTime rows = Returns out ->
  match bucket_of d out with
  | Some b => bucket_ok sum_in_order rows d b
  | None => ~ In d (map date rows)
  end.
Proof.
  intros H. unfold bucket_of.
  destruct (find _ out) as [b|] eqn:E.
  - apply find_some in E as [Hin Hd]. apply String.eqb_eq in Hd.
    subst d. eapply sortedStats_member; eauto.
  - intros Hin. apply (sortedStats_dates _ _ H) in Hin.
    apply in_map_iff in Hin as (b & Hd & Hin).
    apply (find_none _ _ E) in Hin. rewrite Hd, String.eqb_refl in Hin.
    discriminate.
Qed.

Lemma bucket_of_exact rows out d :
  exact_counts rows ->
  sortedStats getTime rows = Returns out ->
  match bucket_of d out with
  | Some b => bucket_ok Zsum rows d b
  | None => ~ In d (map date rows)
  end.
Proof.
  intros Hexact H. pose proof (bucket_of_spec rows out d H) as Hb.
  destruct (bucket_of d out); [|exact Hb]. now apply bucket_ok_exact.
Qed.

(** The cards: all of them, or a [RangeError] from the first date that
    [Date] does not read. *)
Lemma cards_of_dates (stats : list DateBucket) :
  Forall (fun b => is_date getTime (bucket_date b)) stats ->
  Array_map (card getTime) stats = Returns stats.
Proof.
  induction 1 as [|b stats Hb _ IH]; simpl; [reflexivity|].
  unfold card at 1. unfold is_date in Hb.
  destruct (getTime (bucket_date b)); [|congruence].
  simpl. now rewrite IH.
Qed.

Lemma cards_of_no_date (stats : list DateBucket) :
  Exists (fun b => getTime (bucket_date b) = None) stats ->
  Array_map (card getTime) stats = Throws RangeError.
Proof.
  induction stats as [|b stats IH]; intros Hex; [inversion Hex|].
  simpl. unfold card at 1.
  destruct (getTime (bucket_date b)) eqn:E; [|reflexivity].
  apply Exists_cons in Hex as [Hb|Hex]; [congruence|].
  simpl. now rewrite IH.
Qed.

Lemma cards_cases (stats : list DateBucket) :
  (Forall (fun b => is_date getTime (bucket_date b)) stats
   /\ Array_map (card getTime) stats = Returns stats)
  \/ (Exists (fun b => getTime (bucket_date b) = None) stats
      /\ Array_map (card getTime) stats = Throws RangeError).
Proof.
  destruct (Exists_dec (fun b => getTime (bucket_date b) = None) stats)
    as [Hex|Hno].
  { intros b. destruct (getTime (bucket_date b)); [right|left]; congruence. }
  - right. split; [exact Hex|now apply cards_of_no_date].
  - left. apply Forall_Exists_neg in Hno.
    split; [exact Hno|now apply cards_of_dates].
Qed.

(** The dates of the buckets are the dates of the rows. *)
Lemma bucket_dates_of_rows rows out (P : string -> Prop) :
  sortedStats getTime rows = Returns out ->
  (Forall (fun r => P (date r)) rows
   <-> Forall (fun b => P (bucket_date b)) out)
  /\ (Exists (fun r => P (date r)) rows
      <-> Exists (fun b => P (bucket_date b)) out).
Proof.
  intros Hout. destruct (sortedStats_dates _ _ Hout) as [_ Hdates].
  rewrite !Forall_forall, !Exists_exists. repeat split.
  - intros H b Hb.
    assert (Hin : In (bucket_date b) (map date rows))
      by (apply Hdates; now apply in_map).
    apply in_map_iff in Hin as (r & <- & Hr). now apply H.
  - intros H r Hr.
    assert (Hin : In (date r) (map bucket_date out))
      by (apply Hdates; now apply in_map).
    apply in_map_iff in Hin as (b & <- & Hb). now apply H.
  - intros (r & Hr & HP).
    assert (Hin : In (date r) (map bucket_date out))
      by (apply Hdates; now apply in_map).
    apply in_map_iff in Hin as (b & E & Hb). exists b. rewrite E. auto.
  - intros (b & Hb & HP).
    assert (Hin : In (bucket_date b) (map date rows))
      by (apply Hdates; now apply in_map).
    apply in_map_iff in Hin as (r & E & Hr). exists r. rewrite E. auto.
Qed.

End OutputFacts.

(* ================================================================= *)
(** * UsageStatistics: the properties *)

Section UsageProperties.
Import Js Usage.
Variable getTime : string -> option Z.

Lemma date_desc_trans a b c :
  date_desc getTime a b -> date_desc getTime b c -> date_desc getTime a c.
Proof.
  unfold date_desc.
  destruct (getTime (bucket_date a)), (getTime (bucket_date b)),
    (getTime (bucket_date c)); try tauto. lia.
Qed.

Lemma sortedStats_sorted rows out :
  Forall (fun r => is_date getTime (date r)) rows ->
  sortedStats getTime rows = Returns out ->
  StronglySorted (date_desc getTime) out.
Proof.
  intros Hall H.
  destruct (sortedStats_cases getTime rows)
    as [(acc & Hacc & Hok & Hs)|[Hthrows _]];
    [|rewrite Hthrows in H; discriminate].
  rewrite Hs in H. injection H as <-.
  apply Array_sort_sorted
    with (P := fun b => is_date getTime (bucket_date b)).
  - apply date_desc_trans.
  - intros a b Ha Hb. unfold compare_dates, date_desc, is_date in *.
    destruct (getTime (bucket_date a)), (getTime (bucket_date b));
      try congruence. lia.
  - intros a b Ha Hb. unfold compare_dates, date_desc, is_date in *.
    destruct (getTime (bucket_date a)), (getTime (bucket_date b));
      try congruence. lia.
  - apply Forall_forall. intros b Hin.
    apply (Permutation_in _ (Object_values_perm acc)) in Hin.
    apply in_map_iff in Hin as ([d b'] & <- & Hin). simpl.
    destruct (grouped_ok_entry _ _ _ _ Hok Hin) as (Hd & Hbd & _).
    rewrite Hbd. rewrite Forall_forall in Hall.
    apply in_map_iff in Hd as (r & <- & Hr). now apply Hall.
Qed.

(** C1, as the code has it.  For every list of usage rows none of whose
    dates is the name of a member of [Object.prototype], the aggregator
    returns an array with one bucket per distinct date; a bucket holds
    one entry per distinct provider-model key among the rows of its
    date; the bucket's [totalTokens] and [totalRequests] are the
    [tokens_used] and the [request_count] of the rows of its date added
    one after the other, an entry's [tokens] and [requests] those of
    the rows of its date and key; these are the exact sums when the
    counts are exact; and the array is in descending order of date when
    every date is one that [Date] reads. *)
Theorem usage_aggregator_groups_and_sorts (rows : list UsageStat) :
  Forall (fun r => inherited (date r) = false) rows ->
  exists out,
    sortedStats getTime rows = Returns out
    /\ NoDup (map bucket_date out)
    /\ (forall d, In d (map bucket_date out) <-> In d (map date rows))
    /\ (forall b, In b out ->
          NoDup (keys (models b))
          /\ (forall k, In k (keys (models b))
                        <-> In k (map modelKey
                                    (rows_of_date (bucket_date b) rows)))
          /\ bucket_sums sum_in_order rows b)
    /\ (exact_counts rows -> forall b, In b out -> bucket_sums Zsum rows b)
    /\ (Forall (fun r => is_date getTime (date r)) rows ->
        StronglySorted (date_desc getTime) out).
Proof.
  intros Hall.
  destruct (groupedByDate_ok rows Hall) as (acc & Hacc & _).
  assert (Hout : exists out, sortedStats getTime rows = Returns out).
  { unfold sortedStats. rewrite Hacc. simpl. eauto. }
  destruct Hout as (out & Hout).
  exists out. split; [exact Hout|].
  destruct (sortedStats_dates getTime _ _ Hout) as (Hnd & Hdates).
  split; [exact Hnd|]. split; [exact Hdates|]. split; [|split].
  - intros b Hin.
    pose proof (sortedStats_member getTime _ _ _ Hout Hin) as Hb.
    assert (Hm : models_ok sum_in_order (rows_of_date (bucket_date b) rows)
                   (models b)) by apply Hb.
    split; [apply Hm|]. split.
    + intros k. exact (models_ok_keys _ _ k Hm).
    + now apply bucket_ok_sums.
  - intros Hexact b Hin.
    apply bucket_ok_sums, bucket_ok_exact; [exact Hexact|].
    now apply (sortedStats_member getTime _ _ _ Hout).
  - intros Hdated. now apply sortedStats_sorted with (rows := rows).
Qed.

End UsageProperties.

Section UsageReordering.
Import Js Usage.
Variable getTime : string -> option Z.

Lemma rows_sum_perm (f : UsageStat -> Z) (p : UsageStat -> bool) rows rows' :
  Permutation rows rows' ->
  Zsum (map f (filter p rows)) = Zsum (map f (filter p rows')).
Proof.
  intros Hp. apply Zsum_perm, Permutation_map, filter_perm, Hp.
Qed.

Lemma entry_totals_perm rs rs' k m m' :
  Permutation rs rs' -> entry_ok Zsum rs k m -> entry_ok Zsum rs' k m' ->
  (tokens m, requests m) = (tokens m', requests m').
Proof.
  intros Hp (_ & Ht & Hq) (_ & Ht' & Hq'). unfold rows_of_model in *.
  rewrite Ht, Hq, Ht', Hq'.
  now rewrite (rows_sum_perm tokens_used _ _ _ Hp),
    (rows_sum_perm request_count _ _ _ Hp).
Qed.

Lemma models_totals_perm rs rs' ms ms' k :
  Permutation rs rs' -> models_ok Zsum rs ms -> models_ok Zsum rs' ms' ->
  option_map (fun m => (tokens m, requests m)) (get_own k ms)
  = option_map (fun m => (tokens m, requests m)) (get_own k ms').
Proof.
  intros Hp [_ Hget] [_ Hget']. specialize (Hget k). specialize (Hget' k).
  pose proof (Permutation_map modelKey Hp) as Hpk.
  destruct (get_own k ms) as [m|], (get_own k ms') as [m'|]; simpl.
  - f_equal. eapply entry_totals_perm; eauto.
  - destruct Hget as (Hin & _). exfalso. apply Hget'.
    now apply (Permutation_in _ Hpk).
  - destruct Hget' as (Hin & _). exfalso. apply Hget.
    now apply (Permutation_in _ (Permutation_sym Hpk)).
  - reflexivity.
Qed.

(** C2, as the code has it.  Running the aggregator on a list of rows
    with exact counts and on a permutation of it gives, for every date,
    the same [totalTokens] and [totalRequests] and, for every date and
    provider-model key, the same [tokens] and [requests]; the one run
    throws exactly when the other does. *)
Theorem usage_totals_do_not_depend_on_row_order
    (rows rows' : list UsageStat) :
  Permutation rows rows' ->
  exact_counts rows ->
  match sortedStats getTime rows, sortedStats getTime rows' with
  | Returns out, Returns out' =>
      forall d,
        date_totals out d = date_totals out' d
        /\ forall k, model_totals out d k = model_totals out' d k
  | Throws e, Throws e' => e = e'
  | _, _ => False
  end.
Proof.
  intros Hp Hexact.
  assert (Hexact' : exact_counts rows')
    by (now apply (exact_counts_perm rows)).
  assert (Hex : forall l l', Permutation l l' ->
            Exists (fun r => inherited (date r) = true) l ->
            forall out, sortedStats getTime l' <> Returns out).
  { intros l l' Hl E out H.
    apply Exists_exists in E as (r & Hin & Hr).
    unfold sortedStats in H. rewrite groupedByDate_throws in H;
      [discriminate|].
    apply Exists_exists. exists r. split; [|exact Hr].
    now apply (Permutation_in _ Hl). }
  destruct (sortedStats_cases getTime rows) as [(acc & _ & _ & E)|[E Hi]],
           (sortedStats_cases getTime rows')
             as [(acc' & _ & _ & E')|[E' Hi']].
  - rewrite E, E'. intros d.
    pose proof (bucket_of_exact getTime rows _ d Hexact E) as Hb.
    pose proof (bucket_of_exact getTime rows' _ d Hexact' E') as Hb'.
    pose proof (Permutation_map date Hp) as Hpd.
    unfold date_totals, model_totals.
    destruct (bucket_of d _) as [b|], (bucket_of d _) as [b'|].
    + destruct Hb as (_ & _ & Ht & Hq & Hm).
      destruct Hb' as (_ & _ & Ht' & Hq' & Hm').
      unfold rows_of_date in *. split.
      * simpl. rewrite Ht, Hq, Ht', Hq'.
        now rewrite (rows_sum_perm tokens_used _ _ _ Hp),
          (rows_sum_perm request_count _ _ _ Hp).
      * intros k.
        exact (models_totals_perm _ _ _ _ k (filter_perm _ _ _ Hp) Hm Hm').
    + destruct Hb as (Hin & _). exfalso. apply Hb'.
      now apply (Permutation_in _ Hpd).
    + destruct Hb' as (Hin & _). exfalso. apply Hb.
      now apply (Permutation_in _ (Permutation_sym Hpd)).
    + split; reflexivity.
  - exfalso. exact (Hex _ _ (Permutation_sym Hp) Hi' _ E).
  - exfalso. exact (Hex _ _ Hp Hi _ E').
  - rewrite E, E'. reflexivity.
Qed.

End UsageReordering.

Section UsageNoRows.
Import Js Usage.
Variable getTime : string -> option Z.

(** C3.  On the empty list the aggregator returns the empty array and
    the component renders the "no data" placeholder. *)
Theorem usage_of_no_rows_is_no_data :
  sortedStats getTime [] = Returns []
  /\ UsageStatistics getTime [] = Returns NoData.
Proof. split; reflexivity. Qed.

(** The placeholder is for that case alone. *)
Lemma usage_of_rows_is_statistics (r : UsageStat) (rows : list UsageStat)
    (out : list DateBucket) :
  sortedStats getTime (r :: rows) = Returns out ->
  UsageStatistics getTime (r :: rows) <> Returns NoData.
Proof.
  intros Hout. unfold UsageStatistics. rewrite Hout. cbn [bind].
  destruct out as [|b out].
  - destruct (sortedStats_dates getTime _ _ Hout) as [_ Hdates].
    destruct (proj2 (Hdates (date r))) as []. now left.
  - cbn [List.length Nat.eqb].
    destruct (Array_map (card getTime) (b :: out)); cbn [bind]; discriminate.
Qed.

End UsageNoRows.

Section UsageTotals.
Import Js Usage.
Variable getTime : string -> option Z.

(** An object whose values hold the sums of the classes of a list
    holds, all in all, the sum of the list. *)
Lemma Zsum_of_groups {A V} (key : A -> string) (f : A -> Z)
    (val : V -> Z) (o : object V) (l : list A) :
  NoDup (keys o) ->
  (forall k v, In (k, v) o ->
     val v = Zsum (map f (filter (fun a => String.eqb (key a) k) l))) ->
  (forall a, In a l -> In (key a) (keys o)) ->
  Zsum (map (fun e => val (snd e)) o) = Zsum (map f l).
Proof.
  intros Hnd Hval Hcover.
  rewrite <- (Zsum_by_key key f (keys o) l Hnd Hcover).
  unfold keys. rewrite map_map. f_equal. apply map_ext_in.
  intros [k v] Hin. simpl. now apply Hval.
Qed.

Lemma models_ok_sums rs ms :
  models_ok Zsum rs ms ->
  Zsum (map (fun e => tokens (snd e)) ms) = Zsum (map tokens_used rs)
  /\ Zsum (map (fun e => requests (snd e)) ms)
     = Zsum (map request_count rs).
Proof.
  intros Hm.
  assert (Hcover : forall r, In r rs -> In (modelKey r) (keys ms)).
  { intros r Hin. apply (models_ok_keys rs ms _ Hm). now apply in_map. }
  split; apply (Zsum_of_groups modelKey); try apply Hm; try exact Hcover;
    intros k m Hkm; now destruct (models_ok_entry _ _ _ _ Hm Hkm) as (_ & ? & ?).
Qed.

Lemma grouped_ok_sums rows acc :
  grouped_ok Zsum rows acc ->
  Zsum (map (fun e => totalTokens (snd e)) acc)
  = Zsum (map tokens_used rows)
  /\ Zsum (map (fun e => totalRequests (snd e)) acc)
     = Zsum (map request_count rows).
Proof.
  intros Hok.
  assert (Hcover : forall r, In r rows -> In (date r) (keys acc)).
  { intros r Hin. apply (grouped_ok_keys rows acc _ Hok). now apply in_map. }
  split; apply (Zsum_of_groups date); try apply Hok; try exact Hcover;
    intros d b Hdb;
    now destruct (grouped_ok_entry _ _ _ _ Hok Hdb) as (_ & _ & ? & ? & _).
Qed.

(** The magnitudes of the totals of the buckets add up to no more than
    those of the rows. *)
Lemma grouped_ok_magnitude (f : UsageStat -> Z) (total : DateBucket -> Z)
    rows acc :
  grouped_ok Zsum rows acc ->
  (forall d b, In (d, b) acc ->
     total b = Zsum (map f (rows_of_date d rows))) ->
  Zsum (map (fun e => Z.abs (total (snd e))) acc) <= magnitude f rows.
Proof.
  intros Hok Htotal.
  assert (Hcover : forall r, In r rows -> In (date r) (keys acc)).
  { intros r Hin. apply (grouped_ok_keys rows acc _ Hok). now apply in_map. }
  unfold magnitude.
  rewrite <- (Zsum_of_groups date (fun r => Z.abs (f r))
                (fun b => magnitude f (rows_of_date (bucket_date b) rows))
                acc rows).
  - apply Zsum_le. intros [d b] Hin. simpl.
    rewrite (Htotal d b Hin).
    assert (Hd : bucket_date b = d)
      by apply (grouped_ok_entry _ _ _ _ Hok Hin).
    rewrite Hd. unfold magnitude.
    rewrite <- (map_map f Z.abs). apply Zsum_abs.
  - apply Hok.
  - intros d b Hin.
    assert (Hd : bucket_date b = d)
      by apply (grouped_ok_entry _ _ _ _ Hok Hin).
    now rewrite Hd.
  - exact Hcover.
Qed.

(** The two reductions of lines 605 and 616, on exact counts. *)
Lemma sortedStats_grand_totals (rows : list UsageStat)
    (out : list DateBucket) :
  exact_counts rows ->
  sortedStats getTime rows = Returns out ->
  fold_left (fun sum stat => add sum (totalTokens stat)) out 0
  = Zsum (map tokens_used rows)
  /\ fold_left (fun sum stat => add sum (totalRequests stat)) out 0
     = Zsum (map request_count rows).
Proof.
  intros Hexact Hout.
  destruct (sortedStats_inv getTime _ _ Hout) as (acc & _ & Hok & Hperm).
  apply grouped_ok_exact in Hok; [|exact Hexact].
  destruct (grouped_ok_sums _ _ Hok) as [Hgt Hgq].
  destruct Hexact as [Hmt Hmq].
  assert (Hall : forall (f : UsageStat -> Z) (total : DateBucket -> Z),
            magnitude f rows <= 2 ^ 53 ->
            (forall d b, In (d, b) acc ->
               total b = Zsum (map f (rows_of_date d rows))) ->
            fold_left (fun sum stat => add sum (total stat)) out 0
            = Zsum (map (fun e => total (snd e)) acc)).
  { intros f total Hm Htotal.
    pose proof (grouped_ok_magnitude f total rows acc Hok Htotal) as Hle.
    rewrite fold_left_add_map, sum_in_order_exact.
    - rewrite (Zsum_perm _ _ (Permutation_map total Hperm)).
      now rewrite map_map.
    - rewrite map_map.
      rewrite (Zsum_perm _ _ (Permutation_map (fun b => Z.abs (total b))
                                Hperm)).
      rewrite map_map. lia. }
  rewrite (Hall tokens_used totalTokens), (Hall request_count totalRequests);
    try assumption.
  - split; assumption.
  - intros d b Hin.
    now destruct (grouped_ok_entry _ _ _ _ Hok Hin) as (_ & _ & _ & ? & _).
  - intros d b Hin.
    now destruct (grouped_ok_entry _ _ _ _ Hok Hin) as (_ & _ & ? & _).
Qed.

(** What the component does with the sorted array. *)
Lemma UsageStatistics_cases (rows : list UsageStat)
    (out : list DateBucket) :
  sortedStats getTime rows = Returns out ->
  (rows = [] /\ UsageStatistics getTime rows = Returns NoData)
  \/ (rows <> []
      /\ Forall (fun r => is_date getTime (date r)) rows
      /\ UsageStatistics getTime rows
         = Returns
             (Statistics
                (fold_left (fun sum stat => add sum (totalTokens stat)) out 0)
                (fold_left (fun sum stat => add sum (totalRequests stat))
                   out 0)
                (List.length out) out))
  \/ (rows <> []
      /\ Exists (fun r => getTime (date r) = None) rows
      /\ UsageStatistics getTime rows = Throws RangeError).
Proof.
  intros Hout.
  destruct (bucket_dates_of_rows getTime rows out (is_date getTime) Hout)
    as [Hall _].
  destruct (bucket_dates_of_rows getTime rows out
              (fun d => getTime d = None) Hout) as [_ Hex].
  destruct (sortedStats_dates getTime _ _ Hout) as [_ Hdates].
  unfold UsageStatistics. rewrite Hout. cbn [bind].
  destruct rows as [|r rows].
  - left. split; [reflexivity|].
    destruct out as [|b out]; [reflexivity|].
    destruct (proj1 (Hdates (bucket_date b))). now left.
  - right.
    destruct out as [|b out].
    { destruct (proj2 (Hdates (date r))). now left. }
    cbn [List.length Nat.eqb].
    destruct (cards_cases getTime (b :: out)) as [[Hd Hc]|[Hn Hc]];
      rewrite Hc; cbn [bind].
    + left. split; [discriminate|]. split; [now apply Hall|reflexivity].
    + right. split; [discriminate|]. split; [now apply Hex|reflexivity].
Qed.

(** C9, as the code has it.  In every output of the aggregator on rows
    with exact counts a bucket's [totalTokens] is the sum of the
    [tokens] of its model entries and its [totalRequests] the sum of
    their [requests]; the two grand totals that the component reduces
    are the sums of [tokens_used] and of [request_count] over all input
    rows, and they are what it displays whenever it displays the
    statistics, which it does unless there is no row or a date is not
    read by [Date]. *)
Theorem usage_totals_add_up (rows : list UsageStat)
    (out : list DateBucket) :
  sortedStats getTime rows = Returns out ->
  exact_counts rows ->
  Forall (fun b =>
            totalTokens b = Zsum (map (fun e => tokens (snd e)) (models b))
            /\ totalRequests b
               = Zsum (map (fun e => requests (snd e)) (models b))) out
  /\ fold_left (fun sum stat => add sum (totalTokens stat)) out 0
     = Zsum (map tokens_used rows)
  /\ fold_left (fun sum stat => add sum (totalRequests stat)) out 0
     = Zsum (map request_count rows)
  /\ match UsageStatistics getTime rows with
     | Returns NoData => rows = []
     | Returns (Statistics shownTokens shownRequests _ daily) =>
         shownTokens = Zsum (map tokens_used rows)
         /\ shownRequests = Zsum (map request_count rows)
         /\ daily = out
     | Throws e =>
         e = RangeError /\ Exists (fun r => getTime (date r) = None) rows
     end.
Proof.
  intros Hout Hexact.
  assert (Hbuckets : Forall (fun b =>
            totalTokens b = Zsum (map (fun e => tokens (snd e)) (models b))
            /\ totalRequests b
               = Zsum (map (fun e => requests (snd e)) (models b))) out).
  { apply Forall_forall. intros b Hin.
    pose proof (sortedStats_member getTime _ _ _ Hout Hin) as Hb.
    apply bucket_ok_exact in Hb; [|exact Hexact].
    destruct Hb as (_ & _ & Ht & Hq & Hm).
    destruct (models_ok_sums _ _ Hm) as [Hst Hsq]. split; congruence. }
  destruct (sortedStats_grand_totals rows out Hexact Hout) as [Htok Hreq].
  split; [exact Hbuckets|]. split; [exact Htok|]. split; [exact Hreq|].
  destruct (UsageStatistics_cases rows out Hout)
    as [[Hnil ->]|[(_ & _ & ->)|(_ & Hex & ->)]].
  - exact Hnil.
  - repeat split; assumption.
  - split; [reflexivity|exact Hex].
Qed.

End UsageTotals.

(* ================================================================= *)
(** * UsageStatistics on the sample rows *)

Lemma sample_rows_dated :
  Forall (fun r => is_date Usage.sample_getTime (Usage.date r))
    Usage.sample_rows.
Proof. repeat constructor; discriminate. Qed.

Lemma sample_rows_named :
  Forall (fun r => Js.inherited (Usage.date r) = false) Usage.sample_rows.
Proof. repeat constructor. Qed.

Lemma sample_rows_exact : exact_counts Usage.sample_rows.
Proof. split; vm_compute; discriminate. Qed.

Lemma usage_aggregator_groups_and_sorts_witness :
  Forall (fun r => Js.inherited (Usage.date r) = false) Usage.sample_rows
  /\ exists out,
       Usage.sortedStats Usage.sample_getTime Usage.sample_rows
       = Js.Returns out
       /\ NoDup (map Usage.bucket_date out)
       /\ (forall b, In b out -> bucket_sums Zsum Usage.sample_rows b)
       /\ StronglySorted (date_desc Usage.sample_getTime) out.
Proof.
  split; [exact sample_rows_named|].
  destruct (usage_aggregator_groups_and_sorts Usage.sample_getTime
              Usage.sample_rows sample_rows_named)
    as (out & Hout & Hnd & _ & _ & Hsums & Hsorted).
  exists out. split; [exact Hout|]. split; [exact Hnd|].
  split; [exact (Hsums sample_rows_exact)|exact (Hsorted sample_rows_dated)].
Defined.

Lemma usage_totals_do_not_depend_on_row_order_witness :
  Permutation Usage.sample_rows (rev Usage.sample_rows)
  /\ exact_counts Usage.sample_rows
  /\ match Usage.sortedStats Usage.sample_getTime Usage.sample_rows,
           Usage.sortedStats Usage.sample_getTime (rev Usage.sample_rows)
     with
     | Js.Returns out, Js.Returns out' =>
         forall d,
           date_totals out d = date_totals out' d
           /\ forall k, model_totals out d k = model_totals out' d k
     | Js.Throws e, Js.Throws e' => e = e'
     | _, _ => False
     end.
Proof.
  split; [apply Permutation_rev|]. split; [exact sample_rows_exact|].
  apply (usage_totals_do_not_depend_on_row_order Usage.sample_getTime
           Usage.sample_rows (rev Usage.sample_rows)).
  - apply Permutation_rev.
  - exact sample_rows_exact.
Defined.

Lemma usage_totals_add_up_witness :
  Usage.sortedStats Usage.sample_getTime Usage.sample_rows
  = Js.Returns Usage.sample_sorted
  /\ exact_counts Usage.sample_rows
  /\ fold_left (fun sum stat => Js.add sum (Usage.totalTokens stat))
       Usage.sample_sorted 0
     = Zsum (map Usage.tokens_used Usage.sample_rows)
  /\ fold_left (fun sum stat => Js.add sum (Usage.totalRequests stat))
       Usage.sample_sorted 0
     = Zsum (map Usage.request_count Usage.sample_rows).
Proof.
  split; [reflexivity|]. split; [exact sample_rows_exact|].
  destruct (usage_totals_add_up Usage.sample_getTime Usage.sample_rows
              Usage.sample_sorted eq_refl sample_rows_exact)
    as (_ & Ht & Hq & _).
  split; assumption.
Defined.

(** Outside the dates: a row whose date is the name of an inherited
    member makes the reduction throw, whatever the other rows are. *)
Lemma sortedStats_throws_on_inherited_date getTime rows :
  Exists (fun r => Js.inherited (Usage.date r) = true) rows ->
  Usage.sortedStats getTime rows = Js.Throws Js.TypeError.
Proof.
  intros H. unfold Usage.sortedStats.
  now rewrite groupedByDate_throws.
Qed.

(** C1, as the specification has it, fails.  With a date that [Date]
    does not read, here ["unknown"], the comparator gives [NaN] for
    every pair it is part of, a sort by insertion leaves the three
    buckets where they are, and the bucket of the first of January
    stands before the bucket of the second: no date of these rows is an
    inherited name, and the output is not in descending order of date.
    With the date ["constructor"] the test of line 553 finds the
    inherited member, no bucket is made and line 566 throws. *)
Lemma usage_aggregator_fails_on_dates_that_are_no_dates :
  (let entry := [("openai-gpt-4", Usage.mkModelEntry "gpt-4" "openai" 1 1)] in
   let earlier := Usage.mkDateBucket "2024-01-01" 1 1 entry in
   let unknown := Usage.mkDateBucket "unknown" 1 1 entry in
   let later := Usage.mkDateBucket "2024-01-02" 1 1 entry in
   Usage.sortedStats Usage.sample_getTime rows_with_unknown_date
   = Js.Returns [earlier; unknown; later]
   /\ ~ date_desc Usage.sample_getTime earlier later)
  /\ ~ (forall rows,
          Forall (fun r => Js.inherited (Usage.date r) = false) rows ->
          exists out,
            Usage.sortedStats Usage.sample_getTime rows = Js.Returns out
            /\ StronglySorted (date_desc Usage.sample_getTime) out)
  /\ Usage.sortedStats Usage.sample_getTime
       [Usage.mkUsageStat "constructor" 100 1 "gpt-4" "openai"]
     = Js.Throws Js.TypeError.
Proof.
  split; [|split].
  - split; [reflexivity|]. unfold date_desc. simpl. lia.
  - intros H.
    destruct (H rows_with_unknown_date) as (out & Hout & Hsorted).
    { repeat constructor. }
    vm_compute in Hout. injection Hout as <-.
    apply StronglySorted_inv in Hsorted as [_ Hfirst].
    apply Forall_inv in Hfirst. exact Hfirst.
  - reflexivity.
Qed.

(** C2, as the specification has it, fails on counts that are not
    exact: of three rows of one day and one model with [2^53], [1] and
    [1] tokens, the total is [2^53] when the large count comes first,
    each further [1] being rounded away, and [2^53 + 2] when it comes
    last. *)
Lemma usage_totals_depend_on_row_order_past_2_53 :
  Permutation large_rows_first large_rows_last
  /\ (exists out out',
        Usage.sortedStats Usage.sample_getTime large_rows_first
        = Js.Returns out
        /\ Usage.sortedStats Usage.sample_getTime large_rows_last
           = Js.Returns out'
        /\ date_totals out "2024-01-01" = Some (2 ^ 53, 3)
        /\ date_totals out' "2024-01-01" = Some (2 ^ 53 + 2, 3)
        /\ model_totals out "2024-01-01" "openai-gpt-4" = Some (2 ^ 53, 3)
        /\ model_totals out' "2024-01-01" "openai-gpt-4"
           = Some (2 ^ 53 + 2, 3))
  /\ ~ (forall rows rows',
          Permutation rows rows' ->
          match Usage.sortedStats Usage.sample_getTime rows,
                Usage.sortedStats Usage.sample_getTime rows' with
          | Js.Returns out, Js.Returns out' =>
              forall d, date_totals out d = date_totals out' d
          | _, _ => True
          end).
Proof.
  assert (Hp : Permutation large_rows_first large_rows_last).
  { unfold large_rows_first, large_rows_last.
    apply Permutation_cons_append. }
  split; [exact Hp|]. split.
  - do 2 eexists. repeat split; reflexivity.
  - intros H. specialize (H _ _ Hp). vm_compute in H.
    specialize (H "2024-01-01"). discriminate H.
Qed.

(** C9, as the specification has it, fails on counts that are not
    exact: of three rows of one day, one of [2^53] tokens for one model
    and two of [1] token for another, the bucket's total is [2^53], the
    entries hold [2^53] and [2], and the grand total displayed is
    [2^53], two short of the sum over the rows. *)
Lemma usage_totals_do_not_add_up_past_2_53 :
  (exists b,
     Usage.sortedStats Usage.sample_getTime large_rows_of_two_models
     = Js.Returns [b]
     /\ Usage.totalTokens b = 2 ^ 53
     /\ map (fun e => Usage.tokens (snd e)) (Usage.models b) = [2 ^ 53; 2]
     /\ Usage.UsageStatistics Usage.sample_getTime large_rows_of_two_models
        = Js.Returns (Usage.Statistics (2 ^ 53) 3 1 [b])
     /\ Zsum (map Usage.tokens_used large_rows_of_two_models) = 2 ^ 53 + 2)
  /\ ~ (forall rows out,
          Usage.sortedStats Usage.sample_getTime rows = Js.Returns out ->
          Forall (fun b =>
                    Usage.totalTokens b
                    = Zsum (map (fun e => Usage.tokens (snd e))
                              (Usage.models b))) out).
Proof.
  split.
  - eexists. repeat split; reflexivity.
  - intros H.
    specialize (H large_rows_of_two_models _ eq_refl).
    apply Forall_inv in H. vm_compute in H. discriminate H.
Qed.

(* ================================================================= *)
(** * Trimming *)

Section TrimFacts.
Import Js.

Lemma trimStart_blank (s : text) : blank s = true -> trimStart s = [].
Proof.
  unfold blank. induction s as [|c s IH]; simpl; [reflexivity|].
  destruct (strippable c); simpl; [exact IH|discriminate].
Qed.

Lemma trimStart_head (s : text) c s' :
  trimStart s = c :: s' -> strippable c = false.
Proof.
  induction s as [|c0 s IH]; simpl; [discriminate|].
  destruct (strippable c0) eqn:E; [exact IH|].
  intros H. injection H as <- _. exact E.
Qed.

Lemma trimStart_nil (s : text) : trimStart s = [] -> blank s = true.
Proof.
  unfold blank. induction s as [|c s IH]; simpl; [reflexivity|].
  destruct (strippable c); simpl; [exact IH|discriminate].
Qed.

Lemma trim_blank (s : text) : trim s = [] <-> blank s = true.
Proof.
  unfold trim, trimEnd. split.
  - intros H. apply trimStart_nil.
    destruct (trimStart s) as [|c s'] eqn:E; [reflexivity|].
    apply trimStart_head in E.
    apply (f_equal (@rev N)) in H. rewrite rev_involutive in H.
    simpl in H. apply trimStart_nil in H.
    unfold blank in H. rewrite forallb_forall in H.
    rewrite (H c) in E; [discriminate|].
    apply in_app_iff. right. now left.
  - intros H. now rewrite (trimStart_blank s H).
Qed.

(** [title.trim()] is falsy exactly on the blank titles. *)
Lemma truthy_trim (s : text) : truthy (trim s) = negb (blank s).
Proof.
  destruct (blank s) eqn:E.
  - apply trim_blank in E. now rewrite E.
  - destruct (trim s) as [|c t] eqn:Et; [|reflexivity].
    apply trim_blank in Et. congruence.
Qed.

End TrimFacts.

(* ================================================================= *)
(** * ConversationListItem: renaming *)

(** C7.  Submitting a rename, by leaving the input or by the Enter key,
    with a title that is empty or all white space does nothing: no prop
    is called, [onRename] in particular, and the component's state, the
    edited title included, stays as it is. *)
Theorem rename_with_blank_title_is_a_no_op
    (conversation : Model.Conversation) (how : ListItem.submission)
    (s : ListItem.State) :
  Js.blank (ListItem.title s) = true ->
  ListItem.submit conversation how s = (s, [])
  /\ forall newTitle,
       ~ In (ListItem.onRename newTitle)
            (snd (ListItem.submit conversation how s)).
Proof.
  intros Hblank.
  assert (E : ListItem.submit conversation how s = (s, [])).
  { destruct how;
      unfold ListItem.submit, ListItem.handleKeyDown, ListItem.handleRename;
      rewrite ?String.eqb_refl, truthy_trim, Hblank; reflexivity. }
  split; [exact E|]. intros newTitle. rewrite E. simpl. tauto.
Qed.

Lemma rename_with_blank_title_is_a_no_op_witness :
  let s := ListItem.mkState true [32; 9; 12288]%N in
  let c := Assistant.sample_conversation 7 "first" in
  Js.blank (ListItem.title s) = true
  /\ ListItem.submit c ListItem.EnterKey s = (s, []).
Proof.
  split; [reflexivity|].
  apply (rename_with_blank_title_is_a_no_op
           (Assistant.sample_conversation 7 "first") ListItem.EnterKey
           (ListItem.mkState true [32; 9; 12288]%N)).
  reflexivity.
Defined.

(** With any other title the rename goes to the parent, untrimmed, and
    the editing ends. *)
Lemma rename_with_a_title_calls_onRename
    (conversation : Model.Conversation) (how : ListItem.submission)
    (s : ListItem.State) :
  Js.blank (ListItem.title s) = false ->
  ListItem.submit conversation how s
  = (ListItem.mkState false (ListItem.title s),
     [ListItem.onRename (ListItem.title s)]).
Proof.
  intros Hblank.
  destruct how;
    unfold ListItem.submit, ListItem.handleKeyDown, ListItem.handleRename;
    rewrite ?String.eqb_refl, truthy_trim, Hblank; reflexivity.
Qed.

(* ================================================================= *)
(** * NewConversationDialog: creating *)

(** C10.  With an empty or all white space title [handleCreate] returns
    without calling [onCreateConversation] and the create button is
    disabled; no call of [onCreateConversation], from the handler or from
    a click on the button, carries a blank title; and when the creation
    succeeds the form is back to its defaults and the dialog is closed. *)
Theorem create_rejects_blank_title_and_resets_on_success :
  (forall answer s,
     Js.blank (NewDialog.title s) = true ->
     NewDialog.handleCreate answer s = (s, [])
     /\ NewDialog.create_disabled s = true)
  /\ (forall answer s t m p,
        In (NewDialog.onCreateConversation t m p)
           (snd (NewDialog.handleCreate answer s))
        \/ In (NewDialog.onCreateConversation t m p)
              (snd (NewDialog.click_create answer s)) ->
        Js.blank t = false)
  /\ (forall s,
        Js.blank (NewDialog.title s) = false ->
        NewDialog.handleCreate NewDialog.Resolved s
        = (NewDialog.init,
           [NewDialog.onCreateConversation (NewDialog.title s)
              (NewDialog.modelId s)
              (NewDialog.or_undefined (NewDialog.systemPrompt s));
            NewDialog.onOpenChange false])).
Proof.
  assert (Hcall : forall answer s t m p,
            In (NewDialog.onCreateConversation t m p)
               (snd (NewDialog.handleCreate answer s)) ->
            Js.blank t = false).
  { intros answer s t m p. unfold NewDialog.handleCreate.
    rewrite truthy_trim, negb_involutive.
    destruct (Js.blank (NewDialog.title s)) eqn:E; simpl; [tauto|].
    destruct answer; simpl; intros [H|[H|[]]]; try discriminate;
      injection H as <- _ _; exact E. }
  split; [|split].
  - intros answer s Hblank.
    unfold NewDialog.handleCreate, NewDialog.create_disabled.
    now rewrite truthy_trim, Hblank.
  - intros answer s t m p [H|H]; [now apply Hcall in H|].
    unfold NewDialog.click_create in H.
    destruct (NewDialog.create_disabled s); [destruct H|].
    now apply Hcall in H.
  - intros s Hblank. unfold NewDialog.handleCreate.
    now rewrite truthy_trim, Hblank.
Qed.

Lemma create_rejects_blank_title_and_resets_on_success_witness :
  let blank_form := NewDialog.mkState [32; 160]%N (Some 3) "be brief" false in
  let filled_form :=
    NewDialog.mkState (Js.ascii_text "plans") (Some 3) "be brief" false in
  (Js.blank (NewDialog.title blank_form) = true
   /\ NewDialog.handleCreate NewDialog.Resolved blank_form = (blank_form, []))
  /\ (Js.blank (NewDialog.title filled_form) = false
      /\ fst (NewDialog.handleCreate NewDialog.Resolved filled_form)
         = NewDialog.init).
Proof.
  destruct create_rejects_blank_title_and_resets_on_success
    as (Hblank & _ & Hreset).
  split.
  - split; [reflexivity|].
    apply (Hblank NewDialog.Resolved
             (NewDialog.mkState [32; 160]%N (Some 3) "be brief" false)).
    reflexivity.
  - split; [reflexivity|].
    rewrite (Hreset (NewDialog.mkState (Js.ascii_text "plans") (Some 3)
                       "be brief" false)); reflexivity.
Defined.

(* ================================================================= *)
(** * DbAssistant: the loaders *)

Section LoaderFacts.
Import Js Model Assistant.

(** A failed request reaches [catch] with some thrown value. *)
Lemma failed_body {D} (message : string) (r : fetched D) :
  failed r = true -> exists e, body message r = inr e.
Proof. destruct r; simpl; intros H; try discriminate; eauto. Qed.

End LoaderFacts.

(** C4, as the code has it.  When the request of a fetch operation
    fails, the operation ends normally, the failure having been caught
    in it; it has sent its one request and no other; it has written one
    line to [console.error]; the conversations, the selection, the
    messages, the models, the preferences and the usage rows are what
    they were; and a destructive toast carrying the error's text has
    been shown, except by [loadPreferences], which shows none. *)
Theorem failed_fetch_is_caught_logged_and_keeps_state
    (op : Assistant.operation) (be : Assistant.Backend)
    (w : Assistant.World) :
  Assistant.fails op be = true ->
  let w' := Assistant.run op be w in
  Assistant.held w' = Assistant.held w
  /\ Assistant.fetches w'
     = (Assistant.fetches w ++ [Assistant.endpoint op])%list
  /\ exists label e,
       Assistant.console w' = (Assistant.console w ++ [(label, e)])%list
       /\ match op with
          | Assistant.LoadPreferences =>
              Assistant.toasts w' = Assistant.toasts w
          | _ =>
              exists title,
                Assistant.toasts w'
                = (Assistant.toasts w
                   ++ [Model.mkToast title (Model.error_description e)
                         (Some Model.destructive)])%list
          end.
Proof.
  intros Hfails w'. subst w'.
  destruct op; simpl in Hfails; simpl Assistant.run;
    [ unfold Assistant.loadConversations
    | unfold Assistant.loadMessages
    | unfold Assistant.loadModels
    | unfold Assistant.loadPreferences
    | unfold Assistant.loadUsageStats ];
    match goal with
    | |- context [Assistant.body ?m ?r] =>
        destruct (failed_body m r Hfails) as [e ->]
    end;
    (split; [reflexivity|]); (split; [reflexivity|]);
    eexists; exists e; (split; [reflexivity|]);
    try reflexivity; eexists; reflexivity.
Qed.

Lemma failed_fetch_is_caught_logged_and_keeps_state_witness :
  Assistant.fails Assistant.LoadConversations Assistant.failing_backend
  = true
  /\ Assistant.held
       (Assistant.run Assistant.LoadConversations Assistant.failing_backend
          Assistant.sample_world)
     = Assistant.held Assistant.sample_world.
Proof.
  split; [reflexivity|].
  apply (failed_fetch_is_caught_logged_and_keeps_state
           Assistant.LoadConversations Assistant.failing_backend
           Assistant.sample_world).
  reflexivity.
Defined.

(** C4, as the specification has it, fails: a failed load of the
    preferences is logged and shows no toast. *)
Lemma failed_preferences_fetch_shows_no_toast :
  (Assistant.fails Assistant.LoadPreferences Assistant.failing_backend = true
   /\ Assistant.toasts
        (Assistant.run Assistant.LoadPreferences Assistant.failing_backend
           Assistant.initial_world)
      = []
   /\ Assistant.console
        (Assistant.run Assistant.LoadPreferences Assistant.failing_backend
           Assistant.initial_world)
      = [("加载用户偏好设置失败:", Js.ErrorObject "加载用户偏好设置失败")])
  /\ ~ (forall op be w,
          Assistant.fails op be = true ->
          exists t,
            Assistant.toasts (Assistant.run op be w)
            = (Assistant.toasts w ++ [t])%list).
Proof.
  split; [repeat split; reflexivity|].
  intros H.
  destruct (H Assistant.LoadPreferences Assistant.failing_backend
              Assistant.initial_world eq_refl) as [t Ht].
  discriminate Ht.
Qed.

(** What [loadConversations] does, from any state, when its request
    succeeds. *)
Lemma loadConversations_on_success
    (be : Assistant.Backend) (w : Assistant.World)
    (data : list Model.Conversation) :
  Assistant.get_conversations be = Assistant.Json data ->
  let w' := Assistant.loadConversations be w in
  Assistant.conversations (Assistant.ui w') = data
  /\ (forall first rest,
        data = first :: rest ->
        Assistant.currentConversation (Assistant.ui w) = None ->
        Assistant.currentConversation (Assistant.ui w') = Some first
        /\ Assistant.fetches w'
           = (Assistant.fetches w
              ++ [Assistant.conversations_url;
                  Assistant.conversation_url (Model.id first)])%list
        /\ forall fetched_messages,
             Assistant.get_conversation be (Model.id first)
             = Assistant.Json fetched_messages ->
             Assistant.messages (Assistant.ui w') = fetched_messages)
  /\ (data = [] \/ Assistant.currentConversation (Assistant.ui w) <> None ->
        Assistant.currentConversation (Assistant.ui w')
        = Assistant.currentConversation (Assistant.ui w)
        /\ Assistant.messages (Assistant.ui w')
           = Assistant.messages (Assistant.ui w)
        /\ Assistant.fetches w'
           = (Assistant.fetches w ++ [Assistant.conversations_url])%list).
Proof.
  intros Hdata w'. subst w'. unfold Assistant.loadConversations.
  rewrite Hdata. simpl Assistant.body. cbv iota.
  split; [|split].
  - destruct data as [|first rest];
      [reflexivity|].
    destruct (Assistant.currentConversation (Assistant.ui w));
      [reflexivity|].
    unfold Assistant.loadMessages.
    now destruct (Assistant.body _ _).
  - intros first rest -> Hnone. rewrite Hnone.
    unfold Assistant.loadMessages.
    split; [|split].
    + now destruct (Assistant.body _ _).
    + destruct (Assistant.body _ _); simpl;
        now rewrite <- app_assoc.
    + intros fetched_messages ->. reflexivity.
  - intros [->|Hsel].
    + repeat split; reflexivity.
    + destruct (Assistant.currentConversation (Assistant.ui w)) as [c|] eqn:E;
        [|congruence].
      destruct data; simpl; rewrite ?E; repeat split; reflexivity.
Qed.

(** C5.  On mount the conversation list is requested and stored; if it
    is not empty its first conversation becomes the current one, none
    being selected yet, and that conversation's messages are requested
    and, once fetched, displayed.  Whenever [loadConversations] runs: if
    the list is not empty and no conversation is selected it selects the
    first and fetches its messages; if the list is empty or a
    conversation is selected, the selection stays and nothing else is
    requested. *)
Theorem loading_conversations_selects_the_first_when_none_is_selected
    (be : Assistant.Backend) (data : list Model.Conversation) :
  Assistant.get_conversations be = Assistant.Json data ->
  (let w' := Assistant.on_mount be in
   Assistant.conversations (Assistant.ui w') = data
   /\ match data with
      | first :: _ =>
          Assistant.currentConversation (Assistant.ui w') = Some first
          /\ Assistant.fetches w'
             = [Assistant.conversations_url;
                Assistant.conversation_url (Model.id first)]
          /\ forall fetched_messages,
               Assistant.get_conversation be (Model.id first)
               = Assistant.Json fetched_messages ->
               Assistant.messages (Assistant.ui w') = fetched_messages
      | [] =>
          Assistant.currentConversation (Assistant.ui w') = None
          /\ Assistant.fetches w' = [Assistant.conversations_url]
      end)
  /\ forall w,
       let w' := Assistant.loadConversations be w in
       Assistant.conversations (Assistant.ui w') = data
       /\ (forall first rest,
             data = first :: rest ->
             Assistant.currentConversation (Assistant.ui w) = None ->
             Assistant.currentConversation (Assistant.ui w') = Some first
             /\ Assistant.fetches w'
                = (Assistant.fetches w
                   ++ [Assistant.conversations_url;
                       Assistant.conversation_url (Model.id first)])%list
             /\ forall fetched_messages,
                  Assistant.get_conversation be (Model.id first)
                  = Assistant.Json fetched_messages ->
                  Assistant.messages (Assistant.ui w') = fetched_messages)
       /\ (data = []
           \/ Assistant.currentConversation (Assistant.ui w) <> None ->
           Assistant.currentConversation (Assistant.ui w')
           = Assistant.currentConversation (Assistant.ui w)
           /\ Assistant.messages (Assistant.ui w')
              = Assistant.messages (Assistant.ui w)
           /\ Assistant.fetches w'
              = (Assistant.fetches w ++ [Assistant.conversations_url])%list).
Proof.
  intros Hdata. split.
  - unfold Assistant.on_mount.
    destruct (loadConversations_on_success be Assistant.initial_world data
                Hdata) as (Hlist & Hfirst & Hkeep).
    split; [exact Hlist|].
    destruct data as [|first rest].
    + destruct (Hkeep (or_introl eq_refl)) as (Hsel & _ & Hfetch).
      split; [exact Hsel|exact Hfetch].
    + exact (Hfirst first rest eq_refl eq_refl).
  - intros w. now apply loadConversations_on_success.
Qed.

Lemma loading_conversations_selects_the_first_when_none_is_selected_witness :
  let w' := Assistant.on_mount Assistant.sample_backend in
  Assistant.currentConversation (Assistant.ui w')
  = Some (Assistant.sample_conversation 7 "first")
  /\ Assistant.messages (Assistant.ui w')
     = [Assistant.sample_message 1 7 "hello"].
Proof.
  destruct (loading_conversations_selects_the_first_when_none_is_selected
              Assistant.sample_backend _ eq_refl)
    as ((_ & Hsel & _ & Hmsgs) & _).
  split; [exact Hsel|]. apply Hmsgs. reflexivity.
Defined.

(** C6.  Switching to a conversation requests that conversation's
    messages, as every run of [loadMessages] does for the conversation
    it is given, and on success the displayed messages are the fetched
    ones and nothing else. *)
Theorem loading_messages_replaces_the_displayed_ones
    (be : Assistant.Backend) :
  (forall conversation w,
     let w' := Assistant.switchConversation be conversation w in
     Assistant.fetches w'
     = (Assistant.fetches w
        ++ [Assistant.conversation_url (Model.id conversation)])%list
     /\ forall fetched_messages,
          Assistant.get_conversation be (Model.id conversation)
          = Assistant.Json fetched_messages ->
          Assistant.currentConversation (Assistant.ui w')
          = Some conversation
          /\ Assistant.messages (Assistant.ui w') = fetched_messages)
  /\ forall conversationId w,
       let w' := Assistant.loadMessages be conversationId w in
       Assistant.fetches w'
       = (Assistant.fetches w
          ++ [Assistant.conversation_url conversationId])%list
       /\ forall fetched_messages,
            Assistant.get_conversation be conversationId
            = Assistant.Json fetched_messages ->
            Assistant.messages (Assistant.ui w') = fetched_messages
            /\ forall m, In m (Assistant.messages (Assistant.ui w')) ->
                         In m fetched_messages.
Proof.
  split.
  - intros conversation w w'. subst w'.
    unfold Assistant.switchConversation, Assistant.loadMessages. split.
    + now destruct (Assistant.body _ _).
    + intros fetched_messages ->. split; reflexivity.
  - intros conversationId w w'. subst w'.
    unfold Assistant.loadMessages. split.
    + now destruct (Assistant.body _ _).
    + intros fetched_messages ->. simpl. split; [reflexivity|tauto].
Qed.

Lemma loading_messages_replaces_the_displayed_ones_witness :
  Assistant.messages (Assistant.ui Assistant.sample_world)
  = [Assistant.sample_message 1 7 "hello";
     Assistant.sample_message 2 7 "again"]
  /\ Assistant.messages
       (Assistant.ui
          (Assistant.switchConversation Assistant.sample_backend
             (Assistant.sample_conversation 8 "second")
             Assistant.sample_world))
     = [Assistant.sample_message 1 8 "hello"].
Proof.
  split; [reflexivity|].
  destruct (loading_messages_replaces_the_displayed_ones
              Assistant.sample_backend) as (Hswitch & _).
  destruct (Hswitch (Assistant.sample_conversation 8 "second")
              Assistant.sample_world) as (_ & Hok).
  apply (Hok [Assistant.sample_message 1 8 "hello"]). reflexivity.
Defined.

(* ================================================================= *)
(** * Deleting a conversation *)

Section DeleteFacts.
Import Model.

(** Filtering out the one element that carries a given identifier. *)
Lemma filter_out_unique (c : Conversation) (l : list Conversation) :
  In c l -> NoDup (map id l) ->
  exists before after,
    l = (before ++ c :: after)%list
    /\ filter (fun c' => negb (Z.eqb (id c') (id c))) l
       = (before ++ after)%list.
Proof.
  induction l as [|x l IH]; simpl; [tauto|].
  intros Hin Hnd. apply NoDup_cons_iff in Hnd as [Hx Hnd].
  assert (Hkeep : forall l', ~ In (id c) (map id l') ->
            filter (fun c' => negb (Z.eqb (id c') (id c))) l' = l').
  { induction l' as [|y l' IHl']; simpl; [reflexivity|].
    intros Hnin. destruct (Z.eqb_spec (id y) (id c)) as [E|_]; simpl.
    - exfalso. apply Hnin. now left.
    - f_equal. apply IHl'. tauto. }
  destruct Hin as [->|Hin].
  - exists [], l. rewrite Z.eqb_refl. simpl.
    split; [reflexivity|]. now apply Hkeep.
  - destruct (IH Hin Hnd) as (before & after & -> & Hfilter).
    exists (x :: before), after. simpl.
    destruct (Z.eqb_spec (id x) (id c)) as [E|_]; simpl.
    + exfalso. apply Hx. rewrite E. apply in_map. exact Hin.
    + split; [reflexivity|]. now rewrite Hfilter.
Qed.

End DeleteFacts.

(** C8.  Deleting a conversation of the list, whose identifiers are
    distinct, removes that one item and leaves the others as they were
    and in their order; when the deleted conversation was the current
    one the displayed messages are cleared, and otherwise they stay.
    The delete button itself calls [onDelete] and nothing else: the
    click does not reach the row. *)
Theorem deleting_removes_one_conversation_and_clears_its_messages
    (c : Model.Conversation) (w : Assistant.World) :
  In c (Assistant.conversations (Assistant.ui w)) ->
  NoDup (map Model.id (Assistant.conversations (Assistant.ui w))) ->
  let w' := Assistant.deleteConversation (Model.id c) w in
  (exists before after,
     Assistant.conversations (Assistant.ui w) = (before ++ c :: after)%list
     /\ Assistant.conversations (Assistant.ui w') = (before ++ after)%list)
  /\ (forall current,
        Assistant.currentConversation (Assistant.ui w) = Some current ->
        Model.id current = Model.id c ->
        Assistant.messages (Assistant.ui w') = [])
  /\ ((forall current,
         Assistant.currentConversation (Assistant.ui w) = Some current ->
         Model.id current <> Model.id c) ->
      Assistant.messages (Assistant.ui w') = Assistant.messages (Assistant.ui w))
  /\ forall s, ListItem.click ListItem.DeleteButton s = (s, [ListItem.onDelete]).
Proof.
  intros Hin Hnd w'. subst w'. unfold Assistant.deleteConversation.
  destruct (filter_out_unique c _ Hin Hnd) as (before & after & Hl & Hf).
  split; [|split; [|split]].
  - exists before, after. split; [exact Hl|].
    destruct (Assistant.currentConversation (Assistant.ui w)) as [c0|];
      [destruct (Z.eqb (Model.id c0) (Model.id c))|]; exact Hf.
  - intros current -> Hid. rewrite Hid, Z.eqb_refl. reflexivity.
  - intros Hother.
    destruct (Assistant.currentConversation (Assistant.ui w)) as [c0|];
      [|reflexivity].
    destruct (Z.eqb_spec (Model.id c0) (Model.id c)) as [E|_];
      [|reflexivity].
    exfalso. exact (Hother c0 eq_refl E).
  - reflexivity.
Qed.

Lemma deleting_removes_one_conversation_and_clears_its_messages_witness :
  let c := Assistant.sample_conversation 7 "first" in
  let w' := Assistant.deleteConversation 7 Assistant.sample_world in
  In c (Assistant.conversations (Assistant.ui Assistant.sample_world))
  /\ NoDup (map Model.id
              (Assistant.conversations (Assistant.ui Assistant.sample_world)))
  /\ Assistant.messages (Assistant.ui w') = [].
Proof.
  assert (Hin : In (Assistant.sample_conversation 7 "first")
                  (Assistant.conversations
                     (Assistant.ui Assistant.sample_world)))
    by (left; reflexivity).
  assert (Hnd : NoDup (map Model.id
                         (Assistant.conversations
                            (Assistant.ui Assistant.sample_world)))).
  { simpl. repeat constructor; simpl; intuition discriminate. }
  split; [exact Hin|]. split; [exact Hnd|].
  destruct (deleting_removes_one_conversation_and_clears_its_messages
              (Assistant.sample_conversation 7 "first")
              Assistant.sample_world Hin Hnd) as (_ & Hclear & _).
  apply (Hclear (Assistant.sample_conversation 7 "first")); reflexivity.
Defined.

(* ================================================================= *)
(** * UsageStatistics: further properties *)

Section UsageFurther.
Import Js Usage.
Variable getTime : string -> option Z.

(** X1.  The component throws, a [TypeError] out of the reducer, exactly
    when the date of some row is the name of a member that objects
    inherit; one such row is enough, wherever it stands. *)
Theorem usage_throws_exactly_on_inherited_dates (rows : list UsageStat) :
  (sortedStats getTime rows = Throws TypeError
   <-> Exists (fun r => inherited (date r) = true) rows)
  /\ (UsageStatistics getTime rows = Throws TypeError
      <-> Exists (fun r => inherited (date r) = true) rows).
Proof.
  destruct (sortedStats_cases getTime rows)
    as [(acc & Hacc & _ & Hs)|[Hthrow Hex]].
  - assert (Hno : ~ Exists (fun r => inherited (date r) = true) rows).
    { intros Hex. apply groupedByDate_throws in Hex. congruence. }
    split.
    + rewrite Hs. split; [discriminate|tauto].
    + destruct (UsageStatistics_cases getTime rows _ Hs)
        as [[_ ->]|[(_ & _ & ->)|(_ & _ & ->)]];
        (split; [discriminate|tauto]).
  - split.
    + rewrite Hthrow. tauto.
    + unfold UsageStatistics. rewrite Hthrow. cbn [bind]. tauto.
Qed.

Lemma sortedStats_length (rows : list UsageStat) (out : list DateBucket) :
  sortedStats getTime rows = Returns out ->
  List.length out = List.length (nodup string_dec (map date rows)).
Proof.
  intros Hout.
  destruct (sortedStats_dates getTime _ _ Hout) as [Hnd Hdates].
  rewrite <- (length_map bucket_date out).
  apply Permutation_length, NoDup_Permutation;
    [exact Hnd|apply NoDup_nodup|].
  intros d. rewrite nodup_In. apply Hdates.
Qed.

(** X2.  For rows that are grouped, and there is at least one, with
    exact counts: when [Date] reads every date the component shows the
    statistics view with, in this order, the sum of [tokens_used] over
    the rows, the sum of [request_count] over the rows, the number of
    distinct dates as the active days, and the sorted buckets as the
    daily cards; when there is a date that [Date] does not read it
    throws a [RangeError], out of the card of that date. *)
Theorem usage_view_of_rows (rows : list UsageStat) (out : list DateBucket) :
  sortedStats getTime rows = Returns out ->
  rows <> [] ->
  exact_counts rows ->
  (Forall (fun r => is_date getTime (date r)) rows ->
   UsageStatistics getTime rows
   = Returns
       (Statistics (Zsum (map tokens_used rows))
          (Zsum (map request_count rows))
          (List.length (nodup string_dec (map date rows)))
          out))
  /\ (Exists (fun r => getTime (date r) = None) rows ->
      UsageStatistics getTime rows = Throws RangeError).
Proof.
  intros Hout Hrows Hexact.
  destruct (sortedStats_grand_totals getTime rows out Hexact Hout)
    as [Htok Hreq].
  pose proof (sortedStats_length rows out Hout) as Hlen.
  destruct (UsageStatistics_cases getTime rows out Hout)
    as [[Hnil _]|[(_ & Hall & ->)|(_ & Hex & ->)]]; [contradiction|..].
  - split.
    + intros _. now rewrite Htok, Hreq, Hlen.
    + intros Hex. exfalso.
      apply Exists_exists in Hex as (r & Hin & Hr).
      rewrite Forall_forall in Hall. now apply (Hall r Hin).
  - split; [|reflexivity].
    intros Hall. exfalso.
    apply Exists_exists in Hex as (r & Hin & Hr).
    rewrite Forall_forall in Hall. now apply (Hall r Hin).
Qed.

Lemma add_to_models_labels rs r ms :
  models_ok sum_in_order rs ms -> labels_ok rs ms ->
  labels_ok (rs ++ [r]) (add_to_models r ms).
Proof.
  intros [_ Hget] Hlab. unfold add_to_models, get.
  rewrite modelKey_not_inherited.
  assert (Hother : forall k m, modelKey r <> k -> get_own k ms = Some m ->
                              label_ok (rs ++ [r]) k m).
  { intros k m Hne Hk. apply Hlab in Hk. unfold label_ok in *.
    rewrite rows_of_model_snoc.
    destruct (String.eqb_spec (modelKey r) k); [contradiction|].
    now rewrite app_nil_r. }
  pose proof (Hget (modelKey r)) as Hk0.
  destruct (get_own (modelKey r) ms) as [m0|] eqn:Em.
  - rewrite Em. intros k m Hk.
    destruct (string_dec (modelKey r) k) as [<-|Hne].
    + rewrite get_own_set_same in Hk. injection Hk as <-.
      apply Hlab in Em. unfold label_ok in *.
      rewrite rows_of_model_snoc.
      destruct (rows_of_model (modelKey r) rs); [contradiction|exact Em].
    + rewrite get_own_set_other in Hk by assumption. now apply Hother.
  - rewrite get_own_set_same. intros k m Hk.
    destruct (string_dec (modelKey r) k) as [<-|Hne].
    + rewrite get_own_set_same in Hk. injection Hk as <-.
      unfold label_ok.
      rewrite rows_of_model_snoc, String.eqb_refl,
        rows_of_model_absent by assumption.
      simpl. split; reflexivity.
    + rewrite !get_own_set_other in Hk by assumption. now apply Hother.
Qed.

Lemma group_step_labels rows r acc acc' :
  grouped_ok sum_in_order rows acc -> grouped_labels_ok rows acc ->
  group_step acc r = Returns acc' ->
  grouped_labels_ok (rows ++ [r]) acc'.
Proof.
  intros [_ Hget] Hlab Hstep. unfold group_step, get in Hstep.
  assert (Hother : forall d b, date r <> d -> get_own d acc = Some b ->
                     labels_ok (rows_of_date d (rows ++ [r])) (models b)).
  { intros d b Hne Hd. rewrite rows_of_date_snoc.
    destruct (String.eqb_spec (date r) d); [contradiction|].
    rewrite app_nil_r. now apply Hlab. }
  pose proof (Hget (date r)) as Hk0.
  destruct (get_own (date r) acc) as [b0|] eqn:Eb.
  - rewrite Eb in Hstep. injection Hstep as <-. intros d b Hd.
    destruct (string_dec (date r) d) as [<-|Hne].
    + rewrite get_own_set_same in Hd. injection Hd as <-. simpl.
      rewrite rows_of_date_snoc, String.eqb_refl.
      apply add_to_models_labels; [apply Hk0|now apply Hlab].
    + rewrite get_own_set_other in Hd by assumption. now apply Hother.
  - destruct (inherited (date r)).
    + rewrite Eb in Hstep. discriminate.
    + rewrite get_own_set_same in Hstep. injection Hstep as <-.
      intros d b Hd.
      destruct (string_dec (date r) d) as [<-|Hne].
      * rewrite get_own_set_same in Hd. injection Hd as <-. simpl.
        rewrite rows_of_date_snoc, String.eqb_refl,
          rows_of_date_absent by assumption.
        apply (add_to_models_labels [] r []); [apply models_ok_nil|].
        intros k m Hk. discriminate.
      * rewrite !get_own_set_other in Hd by assumption. now apply Hother.
Qed.

Lemma groupedByDate_labels rows : forall acc,
  groupedByDate rows = Returns acc -> grouped_labels_ok rows acc.
Proof.
  induction rows as [|r rows IH] using rev_ind; intros acc Hacc.
  - injection Hacc as <-. intros d b Hd. discriminate.
  - unfold groupedByDate in Hacc. rewrite reduce_snoc in Hacc.
    destruct (groupedByDate_cases rows) as [(acc0 & Hacc0 & Hok)|[Hthrow _]];
      unfold groupedByDate in *.
    + rewrite Hacc0 in Hacc. cbn [bind] in Hacc.
      eapply group_step_labels; eauto.
    + rewrite Hthrow in Hacc. discriminate.
Qed.

(** X3.  A model line is labelled by the first row of its date that has
    its key: the entry's name and provider are that row's, so that the
    React key of the line, provider-name, is the key it is stored under
    and no two lines of a card have the same React key.  Rows with
    another provider and model that join to the same key are counted in
    the same line: its counts are those of all the rows of the key,
    added one after the other, and their sums when the counts are
    exact. *)
Theorem usage_model_lines_are_labelled_by_their_first_row
    (rows : list UsageStat) (out : list DateBucket) :
  sortedStats getTime rows = Returns out ->
  forall b, In b out ->
    NoDup (map (fun e => line_key (snd e)) (models b))
    /\ forall k m, In (k, m) (models b) ->
         exists first rest,
           rows_of_model k (rows_of_date (bucket_date b) rows)
           = first :: rest
           /\ name m = model_name first
           /\ entry_provider m = provider first
           /\ line_key m = k
           /\ tokens m = sum_in_order (map tokens_used (first :: rest))
           /\ requests m = sum_in_order (map request_count (first :: rest))
           /\ (exact_counts rows ->
               tokens m = Zsum (map tokens_used (first :: rest))
               /\ requests m = Zsum (map request_count (first :: rest))).
Proof.
  intros Hout b Hin.
  pose proof (sortedStats_member getTime _ _ _ Hout Hin) as Hb.
  assert (Hexact : exact_counts rows -> bucket_sums Zsum rows b).
  { intros Hexact. now apply bucket_ok_sums, bucket_ok_exact. }
  destruct Hb as (_ & _ & _ & _ & Hm).
  destruct (sortedStats_inv getTime _ _ Hout) as (acc & Hacc & Hok & Hperm).
  apply (Permutation_in _ Hperm) in Hin.
  apply in_map_iff in Hin as ([d b'] & Hb' & Hin). simpl in Hb'. subst b'.
  assert (Hd : bucket_date b = d)
    by apply (grouped_ok_entry _ _ _ _ Hok Hin).
  apply In_get_own in Hin; [|apply Hok].
  pose proof (groupedByDate_labels rows acc Hacc d b Hin) as Hlab.
  rewrite Hd in *.
  assert (Hline : forall k m, In (k, m) (models b) ->
            exists first rest,
              rows_of_model k (rows_of_date d rows) = first :: rest
              /\ name m = model_name first
              /\ entry_provider m = provider first
              /\ line_key m = k
              /\ tokens m = sum_in_order (map tokens_used (first :: rest))
              /\ requests m
                 = sum_in_order (map request_count (first :: rest))
              /\ (exact_counts rows ->
                  tokens m = Zsum (map tokens_used (first :: rest))
                  /\ requests m = Zsum (map request_count (first :: rest)))).
  { intros k m Hkm.
    destruct (models_ok_entry _ _ _ _ Hm Hkm) as (_ & Htok & Hreq).
    assert (Hsums : exact_counts rows ->
              tokens m
              = Zsum (map tokens_used (rows_of_model k (rows_of_date d rows)))
              /\ requests m
                 = Zsum (map request_count
                           (rows_of_model k (rows_of_date d rows)))).
    { intros Hc. destruct (Hexact Hc) as (_ & _ & He).
      rewrite Hd in He. now apply He. }
    apply In_get_own in Hkm; [|apply Hm].
    apply Hlab in Hkm. unfold label_ok in Hkm.
    destruct (rows_of_model k (rows_of_date d rows)) as [|first rest] eqn:E;
      [contradiction|].
    exists first, rest. destruct Hkm as [Hn Hp].
    split; [reflexivity|]. split; [exact Hn|]. split; [exact Hp|].
    split; [|split; [exact Htok|split; [exact Hreq|exact Hsums]]].
    assert (Hfirst : In first (rows_of_model k (rows_of_date d rows)))
      by (rewrite E; now left).
    apply filter_In in Hfirst as [_ Hkey]. apply String.eqb_eq in Hkey.
    unfold line_key. rewrite Hn, Hp. exact Hkey. }
  split; [|exact Hline].
  replace (map (fun e => line_key (snd e)) (models b)) with (keys (models b));
    [apply Hm|].
  unfold keys. apply map_ext_in. intros [k m] Hkm. simpl.
  destruct (Hline k m Hkm) as (_ & _ & _ & _ & _ & Hkey & _). now symmetry.
Qed.

(** X4.  One more row at the end adds its two counts to the totals of
    its date, which start from zero when the date is new, with the [+=]
    of numbers, which is the addition of integers when the counts are
    exact; it leaves the totals of every other date, and of each of its
    models, as they were. *)
Theorem usage_one_more_row_adds_to_its_date
    (rows : list UsageStat) (r : UsageStat) (out out' : list DateBucket) :
  sortedStats getTime rows = Returns out ->
  sortedStats getTime (rows ++ [r]) = Returns out' ->
  let '(t, q) :=
    match date_totals out (date r) with
    | Some before => before
    | None => (0, 0)
    end in
  date_totals out' (date r)
  = Some (add t (tokens_used r), add q (request_count r))
  /\ (exact_counts (rows ++ [r]) ->
      date_totals out' (date r)
      = Some (t + tokens_used r, q + request_count r))
  /\ forall d, d <> date r ->
       date_totals out' d = date_totals out d
       /\ forall k, model_totals out' d k = model_totals out d k.
Proof.
  intros Hout Hout'.
  assert (Hadded :
    date_totals out' (date r)
    = Some (let '(t, q) :=
              match date_totals out (date r) with
              | Some before => before
              | None => (0, 0)
              end in
            (add t (tokens_used r), add q (request_count r)))).
  { pose proof (bucket_of_spec getTime _ _ (date r) Hout) as Hb.
    pose proof (bucket_of_spec getTime _ _ (date r) Hout') as Hb'.
    unfold date_totals.
    destruct (bucket_of (date r) out') as [b'|].
    - destruct Hb' as (_ & _ & Ht' & Hq' & _).
      rewrite rows_of_date_snoc, String.eqb_refl, !map_app in *.
      simpl in Ht', Hq'. rewrite sum_in_order_snoc in Ht', Hq'.
      simpl option_map at 1.
      destruct (bucket_of (date r) out) as [b|].
      + destruct Hb as (_ & _ & Ht & Hq & _). simpl. congruence.
      + rewrite rows_of_date_absent in * by assumption. simpl in *.
        change (sum_in_order []) with 0 in Ht', Hq'. congruence.
    - exfalso. apply Hb'. rewrite map_app, in_app_iff. right. now left. }
  assert (Hbefore :
    exact_counts rows ->
    match date_totals out (date r) with
    | Some before => before
    | None => (0, 0)
    end
    = (Zsum (map tokens_used (rows_of_date (date r) rows)),
       Zsum (map request_count (rows_of_date (date r) rows)))).
  { intros Hexact.
    pose proof (bucket_of_exact getTime _ _ (date r) Hexact Hout) as Hb.
    unfold date_totals.
    destruct (bucket_of (date r) out) as [b|].
    - destruct Hb as (_ & _ & Ht & Hq & _). simpl. congruence.
    - now rewrite rows_of_date_absent. }
  destruct (match date_totals out (date r) with
            | Some before => before
            | None => (0, 0)
            end) as [t q] eqn:E.
  split; [exact Hadded|]. split.
  - intros Hexact. rewrite Hadded. f_equal.
    pose proof (exact_counts_without_last _ _ Hexact) as Hrows.
    specialize (Hbefore Hrows). injection Hbefore as -> ->.
    destruct (exact_counts_filter (fun x => String.eqb (date x) (date r))
                _ Hexact) as [Hmt Hmq].
    rewrite filter_app in Hmt, Hmq. simpl in Hmt, Hmq.
    rewrite String.eqb_refl, magnitude_app in Hmt, Hmq.
    unfold magnitude in Hmt, Hmq. simpl in Hmt, Hmq.
    fold (rows_of_date (date r) rows) in Hmt, Hmq.
    pose proof (Zsum_abs (map tokens_used (rows_of_date (date r) rows))).
    pose proof (Zsum_abs (map request_count (rows_of_date (date r) rows))).
    rewrite !map_map in *.
    rewrite !add_exact; [reflexivity|lia|lia].
  - intros d Hne.
    pose proof (bucket_of_spec getTime _ _ d Hout) as Hb.
    pose proof (bucket_of_spec getTime _ _ d Hout') as Hb'.
    assert (Hrows : rows_of_date d (rows ++ [r]) = rows_of_date d rows).
    { rewrite rows_of_date_snoc.
      destruct (String.eqb_spec (date r) d); [congruence|apply app_nil_r]. }
    assert (Hdates : In d (map date (rows ++ [r])) <-> In d (map date rows)).
    { rewrite map_app, in_app_iff. simpl. intuition congruence. }
    unfold date_totals, model_totals.
    destruct (bucket_of d out') as [b'|], (bucket_of d out) as [b|].
    + destruct Hb as (_ & _ & Ht & Hq & Hm).
      destruct Hb' as (_ & _ & Ht' & Hq' & Hm').
      rewrite Hrows in *. split.
      * simpl. congruence.
      * intros k. destruct Hm as [_ Hget], Hm' as [_ Hget'].
        specialize (Hget k). specialize (Hget' k).
        destruct (Js.get_own k (models b')) as [m'|],
                 (Js.get_own k (models b)) as [m|]; simpl.
        -- destruct Hget as (_ & Hmt & Hmq), Hget' as (_ & Hmt' & Hmq').
           congruence.
        -- destruct Hget' as (Hk & _). contradiction.
        -- destruct Hget as (Hk & _). contradiction.
        -- reflexivity.
    + destruct Hb' as (Hin & _). apply Hdates in Hin. contradiction.
    + destruct Hb as (Hin & _). apply Hdates in Hin. contradiction.
    + split; reflexivity.
Qed.

End UsageFurther.

(* ================================================================= *)
(** * Numbers: printing and reading back *)

Section NumberFacts.
Import Js JsNumber.

Lemma numeral_digits (d : Decimal.uint) (a : N) :
  digits 10 (numeral d) (Some a)
  = Some (DecimalPos.Unsigned.of_lu (Decimal.rev d)
          + a * 10 ^ DecimalPos.Unsigned.usize d)%N.
Proof.
  revert a. unfold numeral.
  induction d as [|d IH|d IH|d IH|d IH|d IH|d IH|d IH|d IH|d IH|d IH];
    intros a;
    [ simpl; f_equal; ring | .. ];
    (cbn [NilEmpty.string_of_uint ascii_text list_ascii_of_string map digits];
     match goal with
     | |- context [digit 10 ?c] =>
         let v := eval vm_compute in (digit 10 c) in
         change (digit 10 c) with v
     end;
     cbv iota; fold (ascii_text (NilEmpty.string_of_uint d)); rewrite IH;
     match goal with
     | |- context [Decimal.rev (?f d)] =>
         change (Decimal.rev (f d)) with (Decimal.revapp d (f Decimal.Nil));
         rewrite (DecimalPos.Unsigned.of_lu_revapp d (f Decimal.Nil))
     end;
     cbn [DecimalPos.Unsigned.of_lu DecimalPos.Unsigned.usize];
     rewrite N.pow_succ_r'; f_equal; ring).
Qed.

Lemma numeral_value (d : Decimal.uint) :
  d <> Decimal.Nil ->
  digits 10 (numeral d) None = Some (Pos.of_uint d).
Proof.
  intros Hd. rewrite DecimalPos.Unsigned.of_uint_alt.
  destruct d as [|d|d|d|d|d|d|d|d|d|d]; [congruence|..];
    (unfold numeral;
     cbn [NilEmpty.string_of_uint ascii_text list_ascii_of_string map digits];
     match goal with
     | |- context [digit 10 ?c] =>
         let v := eval vm_compute in (digit 10 c) in
         change (digit 10 c) with v
     end;
     cbv iota; fold (ascii_text (NilEmpty.string_of_uint d));
     fold (numeral d); rewrite numeral_digits;
     match goal with
     | |- context [Decimal.rev (?f d)] =>
         change (Decimal.rev (f d)) with (Decimal.revapp d (f Decimal.Nil));
         rewrite (DecimalPos.Unsigned.of_lu_revapp d (f Decimal.Nil))
     end;
     cbn [DecimalPos.Unsigned.of_lu]; f_equal; ring).
Qed.

Lemma numeral_decimal (d : Decimal.uint) : Forall decimal_digit (numeral d).
Proof.
  unfold numeral, decimal_digit.
  induction d; simpl; constructor; try exact IHd; vm_compute;
    split; discriminate.
Qed.

Lemma numeral_nonempty (d : Decimal.uint) :
  d <> Decimal.Nil -> numeral d <> [].
Proof. destruct d; [congruence|..]; discriminate. Qed.

Lemma decimal_digit_not_strippable (c : N) :
  decimal_digit c -> strippable c = false.
Proof.
  unfold decimal_digit, strippable, is_white_space, is_line_terminator.
  intros Hc.
  repeat match goal with
         | |- context [(c =? ?k)%N] =>
             replace (c =? k)%N with false
               by (symmetry; apply N.eqb_neq; lia)
         end.
  replace (8192 <=? c)%N with false by (symmetry; apply N.leb_gt; lia).
  reflexivity.
Qed.

(** Reading a string of decimal digits, with or without a minus sign
    before it. *)
Lemma mathInt_decimal (negative : bool) (s : text) :
  s <> [] -> Forall decimal_digit s ->
  mathInt (if negative then 45%N :: s else s)
  = match digits 10 s None with
    | Some n => Some (if negative then - Z.of_N n else Z.of_N n)
    | None => None
    end.
Proof.
  intros Hs Hall. destruct s as [|c0 s]; [congruence|].
  apply Forall_cons_iff in Hall as [Hc0 Hall].
  assert (Hhex : forall c1, decimal_digit c1 ->
            ((c0 =? 48) && ((c1 =? 120) || (c1 =? 88)))%N = false).
  { intros c1 Hc1. unfold decimal_digit in Hc1.
    replace (c1 =? 120)%N with false by (symmetry; apply N.eqb_neq; lia).
    replace (c1 =? 88)%N with false by (symmetry; apply N.eqb_neq; lia).
    apply andb_false_r. }
  unfold mathInt. destruct negative.
  - change (trimStart (45%N :: c0 :: s)) with (45%N :: c0 :: s).
    cbv beta iota. change (45 =? 45)%N with true. cbv iota.
    destruct s as [|c1 s']; [reflexivity|].
    rewrite Hhex by (now apply Forall_cons_iff in Hall). reflexivity.
  - cbn [trimStart]. rewrite (decimal_digit_not_strippable c0 Hc0).
    unfold decimal_digit in Hc0.
    replace (c0 =? 45)%N with false by (symmetry; apply N.eqb_neq; lia).
    replace (c0 =? 43)%N with false by (symmetry; apply N.eqb_neq; lia).
    cbv beta iota.
    destruct s as [|c1 s']; [reflexivity|].
    rewrite Hhex by (now apply Forall_cons_iff in Hall). reflexivity.
Qed.

Lemma toString_numeral (n : Z) :
  toString n
  = match n with
    | Z0 => [48%N]
    | Zpos p => numeral (Pos.to_uint p)
    | Zneg p => 45%N :: numeral (Pos.to_uint p)
    end.
Proof.
  unfold toString, Assistant.decimal, numeral.
  destruct n as [|p|p]; [reflexivity|..]; simpl Z.to_int;
    cbn [NilZero.string_of_int NilZero.string_of_uint];
    pose proof (DecimalPos.Unsigned.to_uint_nonnil p) as Hp;
    destruct (Pos.to_uint p); congruence || reflexivity.
Qed.

(** Printing, then reading the integer. *)
Lemma mathInt_toString (n : Z) : mathInt (toString n) = Some n.
Proof.
  rewrite toString_numeral. destruct n as [|p|p]; [reflexivity|..].
  - rewrite (mathInt_decimal false);
      [|apply numeral_nonempty, DecimalPos.Unsigned.to_uint_nonnil
       |apply numeral_decimal].
    rewrite numeral_value by apply DecimalPos.Unsigned.to_uint_nonnil.
    now rewrite DecimalPos.Unsigned.of_to.
  - rewrite (mathInt_decimal true);
      [|apply numeral_nonempty, DecimalPos.Unsigned.to_uint_nonnil
       |apply numeral_decimal].
    rewrite numeral_value by apply DecimalPos.Unsigned.to_uint_nonnil.
    now rewrite DecimalPos.Unsigned.of_to.
Qed.

Lemma toString_inj (n m : Z) : toString n = toString m -> n = m.
Proof.
  intros H.
  assert (E : Some n = Some m) by (rewrite <- !mathInt_toString; now rewrite H).
  now injection E.
Qed.

(** A safe integer is a number. *)
Lemma to_number_safe (n : Z) : isSafeInteger n = true -> to_number n = Int n.
Proof.
  unfold isSafeInteger, to_number. intros Hn. apply Z.leb_le in Hn.
  rewrite nearest_exact by lia.
  assert (H : 2 ^ 53 < 2 ^ 1024) by (apply Z.pow_lt_mono_r; lia).
  destruct (Z.leb_spec (2 ^ 1024) (Z.abs n)); [lia|reflexivity].
Qed.

Lemma parseInt_toString (n : Z) :
  isSafeInteger n = true -> parseInt (toString n) = Int n.
Proof.
  intros Hn. unfold parseInt. rewrite mathInt_toString.
  now apply to_number_safe.
Qed.

(** X5.  A safe integer printed by [toString] and read by
    [Number.parseInt] is the number again, and two safe integers that
    print alike are the same: the select of a model, whose items carry
    [model.id.toString()], hands the identifier of the chosen model to
    the state (lines 352 and 735), and the select of the length one of
    its four lengths (line 523). *)
Theorem parseInt_of_toString (n : Z) :
  isSafeInteger n = true ->
  parseInt (toString n) = Int n
  /\ forall m, isSafeInteger m = true -> toString n = toString m -> n = m.
Proof.
  intros Hn. split; [now apply parseInt_toString|].
  intros m _. apply toString_inj.
Qed.

End NumberFacts.

Section SelectFacts.
Import Js JsNumber.

Lemma toString_truthy (n : Z) : truthy (toString n) = true.
Proof.
  rewrite toString_numeral. destruct n as [|p|p]; try reflexivity.
  pose proof (numeral_nonempty _ (DecimalPos.Unsigned.to_uint_nonnil p)).
  now destruct (numeral (Pos.to_uint p)).
Qed.

(** X6.  In the model select of the new conversation dialog every model
    item sets [modelId] to the identifier of its model, the identifiers
    being safe integers; the first item, "default", sets it to [NaN],
    not to [undefined]. *)
Theorem model_select_gives_the_model_or_NaN
    (models : list Model.AiModel) (value : text) :
  Forall (fun model => isSafeInteger (Model.ai_id model) = true) models ->
  In value (item_values models) ->
  (value = ascii_text "default" /\ onValueChange value = Some NaN)
  \/ exists model,
       In model models
       /\ value = toString (Model.ai_id model)
       /\ onValueChange value = Some (Int (Model.ai_id model)).
Proof.
  unfold item_values. intros Hsafe [<-|Hin].
  - left. split; reflexivity.
  - right. apply in_map_iff in Hin as (model & <- & Hin).
    exists model. repeat split; [exact Hin|].
    unfold onValueChange.
    rewrite Forall_forall in Hsafe.
    now rewrite toString_truthy, parseInt_toString by auto.
Qed.

Lemma append_inj_l (p x y : string) : (p ++ x = p ++ y)%string -> x = y.
Proof.
  induction p as [|c p IH]; simpl; [trivial|].
  intros H. injection H as H. auto.
Qed.

(** X7.  The messages of two conversations are requested at two
    addresses: the address of line 837 determines the identifier. *)
Theorem conversation_url_determines_the_conversation (a b : Z) :
  a <> b ->
  Assistant.conversation_url a <> Assistant.conversation_url b.
Proof.
  unfold Assistant.conversation_url. intros Hne H. apply append_inj_l in H.
  apply Hne, toString_inj. unfold toString. now rewrite H.
Qed.

End SelectFacts.

(* ================================================================= *)
(** * DbAssistant: further properties of the loaders *)

Section LoaderFurther.
Import Js Model Assistant.

(** Every loader, unfolded, with the answers of the backend taken case
    by case. *)
Ltac run_loader :=
  unfold loadConversations, loadMessages, loadModels, loadPreferences,
    loadUsageStats in *;
  repeat match goal with
         | |- context [body ?m ?r] => destruct (body m r)
         | |- context [match ?l with [] => _ | _ :: _ => _ end] =>
             destruct l
         | |- context [match currentConversation ?s with _ => _ end] =>
             destruct (currentConversation s) eqn:?
         end.

(** Every answer of the backend, case by case, in a loader that runs
    from one [await] to the next. *)
Ltac settle_loader be :=
  unfold Async.settle_all, Async.settle, Async.call, Async.idle, Async.start,
    Async.loadConversations, Async.loadMessages, Async.loadModels,
    Async.loadPreferences, Async.loadUsageStats, Async.request;
  cbn;
  repeat (match goal with
          | |- context [get_conversations be] =>
              destruct (get_conversations be)
          | |- context [get_models be] => destruct (get_models be)
          | |- context [get_preferences be] => destruct (get_preferences be)
          | |- context [get_usage be] => destruct (get_usage be)
          | |- context [match ?l with [] => _ | _ :: _ => _ end] =>
              is_var l; destruct l
          | |- context [match currentConversation ?s with _ => _ end] =>
              destruct (currentConversation s)
          | |- context [get_conversation be ?c] =>
              destruct (get_conversation be c)
          end; cbn).

(** A loader that runs from one [await] to the next, with no other call
    in between, ends in the world that [run] gives for it: four promises
    at most settle, two of the load and two of the load of messages it
    may have started. *)
Lemma run_is_the_load_settled (op : operation) (be : Backend) (w : World) :
  let settled :=
    Async.settle_all [0; 0; 0; 0]%nat
      (Async.call (Async.start op be) (Async.idle w)) in
  Async.world settled = run op be w /\ Async.waiting settled = [].
Proof.
  destruct op; cbn [run];
    unfold loadConversations, loadMessages, loadModels, loadPreferences,
      loadUsageStats;
    settle_loader be; split; reflexivity.
Qed.

(** X8.  A load switches its own loading flag on when it is called and
    off when it ends, whatever the backend answered.  What is left
    waiting when it has ended is the load of messages that a load
    of conversations started, with the flag of the messages on; once
    that has ended too nothing is waiting and no flag is on that was
    not on before the call. *)
Theorem finished_load_leaves_no_spinner_on
    (op : operation) (be : Backend) (w : World) :
  let called := Async.call (Async.start op be) (Async.idle w) in
  let ended := Async.settle_all [0; 0]%nat called in
  let settled := Async.settle_all [0; 0]%nat ended in
  loading op (ui (Async.world called)) = true
  /\ map Async.op_of (Async.waiting called) = [op]
  /\ loading op (ui (Async.world ended)) = false
  /\ (Async.waiting ended = []
      \/ op = LoadConversations
         /\ isLoadingMessages (ui (Async.world ended)) = true
         /\ exists first rest,
              get_conversations be = Json (first :: rest)
              /\ map Async.op_of (Async.waiting ended)
                 = [LoadMessages (id first)])
  /\ Async.waiting settled = []
  /\ loading op (ui (Async.world settled)) = false
  /\ forall other,
       loading other (ui (Async.world settled)) = true ->
       loading other (ui w) = true.
Proof.
  destruct op; cbn [loading];
    settle_loader be;
    (split; [reflexivity|]); (split; [reflexivity|]);
    (split; [reflexivity|]);
    (split; [first [left; reflexivity
                   |right; split; [reflexivity|]; split; [reflexivity|];
                    do 2 eexists; split; reflexivity]|]);
    (split; [reflexivity|]); (split; [reflexivity|]);
    intros other; destruct other; cbn; trivial; discriminate.
Qed.

(** X9.  A load of messages, of models, of preferences or of usage rows
    whose request succeeds puts the fetched data in its cell and leaves
    the other cells as they were; it sends its one request, logs
    nothing and shows no toast. *)
Theorem successful_load_stores_the_data_and_is_silent
    (be : Backend) (w : World) :
  (forall conversationId data,
     get_conversation be conversationId = Json data ->
     held (loadMessages be conversationId w)
     = (conversations (ui w), currentConversation (ui w), data,
        models (ui w), preferences (ui w), usageStats (ui w)))
  /\ (forall data,
        get_models be = Json data ->
        held (loadModels be w)
        = (conversations (ui w), currentConversation (ui w),
           messages (ui w), data, preferences (ui w), usageStats (ui w)))
  /\ (forall data,
        get_preferences be = Json data ->
        held (loadPreferences be w)
        = (conversations (ui w), currentConversation (ui w),
           messages (ui w), models (ui w), data, usageStats (ui w)))
  /\ (forall data,
        get_usage be = Json data ->
        held (loadUsageStats be w)
        = (conversations (ui w), currentConversation (ui w),
           messages (ui w), models (ui w), preferences (ui w), data))
  /\ (forall op,
        op <> LoadConversations -> fails op be = false ->
        fetches (run op be w) = (fetches w ++ [endpoint op])%list
        /\ console (run op be w) = console w
        /\ toasts (run op be w) = toasts w).
Proof.
  repeat split.
  - intros conversationId data H. unfold loadMessages. now rewrite H.
  - intros data H. unfold loadModels. now rewrite H.
  - intros data H. unfold loadPreferences. now rewrite H.
  - intros data H. unfold loadUsageStats. now rewrite H.
  - destruct op; try congruence; simpl in H0; simpl run;
      unfold loadMessages, loadModels, loadPreferences, loadUsageStats;
      match goal with
      | H : failed ?r = false |- _ => destruct r; try discriminate
      end; reflexivity.
  - destruct op; try congruence; simpl in H0; simpl run;
      unfold loadMessages, loadModels, loadPreferences, loadUsageStats;
      match goal with
      | H : failed ?r = false |- _ => destruct r; try discriminate
      end; reflexivity.
  - destruct op; try congruence; simpl in H0; simpl run;
      unfold loadMessages, loadModels, loadPreferences, loadUsageStats;
      match goal with
      | H : failed ?r = false |- _ => destruct r; try discriminate
      end; reflexivity.
Qed.

(** X10.  When the list of conversations arrives and the messages of
    its first conversation do not, the list is stored and the first
    conversation is selected all the same; the messages shown stay what
    they were, the failure of the second request is logged and shown in
    a toast of its own, and both loading flags are off. *)
Theorem conversations_load_with_failed_messages
    (be : Backend) (w : World) (first : Conversation)
    (rest : list Conversation) :
  get_conversations be = Json (first :: rest) ->
  currentConversation (ui w) = None ->
  failed (get_conversation be (id first)) = true ->
  let w' := loadConversations be w in
  conversations (ui w') = first :: rest
  /\ currentConversation (ui w') = Some first
  /\ messages (ui w') = messages (ui w)
  /\ isLoadingConversations (ui w') = false
  /\ isLoadingMessages (ui w') = false
  /\ fetches w'
     = (fetches w ++ [conversations_url; conversation_url (id first)])%list
  /\ exists e,
       console w' = (console w ++ [("加载对话消息失败:", e)])%list
       /\ toasts w'
          = (toasts w ++ [failure_toast "加载对话消息失败" e])%list.
Proof.
  intros Hlist Hnone Hfail w'. subst w'.
  unfold loadConversations. rewrite Hlist. simpl body. cbv iota.
  rewrite Hnone. unfold loadMessages.
  destruct (failed_body "加载对话消息失败" _ Hfail) as [e ->].
  repeat split; try reflexivity.
  - simpl. now rewrite <- app_assoc.
  - exists e. split; reflexivity.
Qed.

(** X11.  Of two loads of messages that are under way at once, the
    one whose answer comes last decides what is shown, whichever was
    called last: when the answers come in the order of the calls the
    messages of the second call are shown, and when the second call is
    answered before the first the messages of the first call are shown
    in the end, with the loading flag off as soon as the second has
    ended and the first is still waiting.  Neither looks at the
    selection or changes it. *)
Theorem last_answered_load_of_messages_is_shown
    (be : Backend) (a b : Z) (w : World) (data_a data_b : list Message) :
  get_conversation be a = Json data_a ->
  get_conversation be b = Json data_b ->
  let called :=
    Async.call (Async.loadMessages be b)
      (Async.call (Async.loadMessages be a) (Async.idle w)) in
  let in_order := Async.settle_all [0; 0; 0; 0]%nat called in
  let second_first := Async.settle_all [1; 1]%nat called in
  let overtaken := Async.settle_all [0; 0]%nat second_first in
  map Async.op_of (Async.waiting called) = [LoadMessages a; LoadMessages b]
  /\ fetches (Async.world called)
     = (fetches w ++ [conversation_url a; conversation_url b])%list
  /\ (Async.waiting in_order = []
      /\ messages (ui (Async.world in_order)) = data_b
      /\ currentConversation (ui (Async.world in_order))
         = currentConversation (ui w))
  /\ (map Async.op_of (Async.waiting second_first) = [LoadMessages a]
      /\ messages (ui (Async.world second_first)) = data_b
      /\ isLoadingMessages (ui (Async.world second_first)) = false)
  /\ (Async.waiting overtaken = []
      /\ messages (ui (Async.world overtaken)) = data_a
      /\ currentConversation (ui (Async.world overtaken))
         = currentConversation (ui w)).
Proof.
  intros Ha Hb.
  unfold Async.settle_all, Async.settle, Async.call, Async.idle,
    Async.loadMessages, Async.request.
  rewrite Ha, Hb. cbn. rewrite <- app_assoc.
  repeat split; reflexivity.
Qed.

(** X12.  A load only adds to what the component sent, logged and
    showed: it sends one request, or two when the load of the
    conversations goes on to the messages; it logs at most as many
    errors as it sent requests and shows at most as many toasts as it
    logged errors. *)
Theorem load_only_adds_requests_errors_and_toasts
    (op : operation) (be : Backend) (w : World) :
  exists sent logged shown,
    fetches (run op be w) = (fetches w ++ sent)%list
    /\ console (run op be w) = (console w ++ logged)%list
    /\ toasts (run op be w) = (toasts w ++ shown)%list
    /\ (List.length shown <= List.length logged <= 1)%nat
    /\ (1 <= List.length sent <= 2)%nat
    /\ (List.length logged <= List.length sent)%nat.
Proof.
  destruct op; simpl run;
    unfold loadConversations, loadMessages, loadModels, loadPreferences,
      loadUsageStats;
    repeat match goal with
           | |- context [body ?m ?r] => destruct (body m r)
           | |- context [match ?l with [] => _ | _ :: _ => _ end] =>
               destruct l
           | |- context [match currentConversation ?s with _ => _ end] =>
               destruct (currentConversation s)
           end;
    simpl fetches; simpl console; simpl toasts;
    rewrite <- ?app_assoc;
    do 3 eexists;
    (split; [first [reflexivity|symmetry; apply app_nil_r]|]);
    (split; [first [reflexivity|symmetry; apply app_nil_r]|]);
    (split; [first [reflexivity|symmetry; apply app_nil_r]|]);
    simpl; lia.
Qed.



End LoaderFurther.

(* ================================================================= *)
(** * ConversationListItem, NewConversationDialog: further properties *)

(** X14.  Of all the clicks on a list item only the click on the row
    itself calls [onClick]: the input and the pin, rename and delete
    buttons stop the click, so that pinning, renaming or deleting a
    conversation never selects it; and only the delete button calls
    [onDelete]. *)
Theorem only_the_row_click_selects
    (t : ListItem.target) (s : ListItem.State) :
  (In ListItem.onClick (snd (ListItem.click t s)) <-> t = ListItem.Row)
  /\ (In ListItem.onDelete (snd (ListItem.click t s))
      <-> t = ListItem.DeleteButton).
Proof.
  unfold ListItem.click, ListItem.rendered.
  destruct t; destruct (ListItem.isEditing s); simpl;
    split; split; intros H; try discriminate H;
    try reflexivity; try (now left); intuition discriminate.
Qed.

(** X15.  Whatever the outcome of a creation that was sent, the dialog
    is closed exactly when it succeeded.  When it failed what was typed
    stays in the form, the dialog stays as it is and one destructive
    toast carries the error's text; either way [isCreating] is off. *)
Theorem create_closes_only_on_success
    (answer : NewDialog.settled) (s : NewDialog.State) :
  Js.blank (NewDialog.title s) = false ->
  let '(s', effects) := NewDialog.handleCreate answer s in
  NewDialog.isCreating s' = false
  /\ (In (NewDialog.onOpenChange false) effects
      <-> answer = NewDialog.Resolved)
  /\ ~ In (NewDialog.onOpenChange true) effects
  /\ forall error,
       answer = NewDialog.Rejected error ->
       NewDialog.title s' = NewDialog.title s
       /\ NewDialog.modelId s' = NewDialog.modelId s
       /\ NewDialog.systemPrompt s' = NewDialog.systemPrompt s
       /\ effects
          = [NewDialog.onCreateConversation (NewDialog.title s)
               (NewDialog.modelId s)
               (NewDialog.or_undefined (NewDialog.systemPrompt s));
             NewDialog.toast
               (Model.mkToast "创建对话失败" (Model.error_description error)
                  (Some Model.destructive))].
Proof.
  intros Hblank. unfold NewDialog.handleCreate.
  rewrite truthy_trim, Hblank. cbn [negb].
  destruct answer as [|e]; cbn -[Model.error_description].
  - repeat split; auto; try discriminate.
    intros [H|[H|[]]]; discriminate.
  - split; [reflexivity|]. split.
    + split; [intros [H|[H|[]]]; discriminate|discriminate].
    + split; [intros [H|[H|[]]]; discriminate|].
      intros error [= <-]. repeat split.
Qed.

(* ================================================================= *)
(** * AssistantSettings: saving *)

Section SettingsFacts.
Import Settings.
Context {Preferences : Type}.
Implicit Types (s : State Preferences) (provider : Provider).

Lemma with_key_same provider value keys :
  key_of provider (with_key provider value keys) = value.
Proof. now destruct provider. Qed.

Lemma with_key_other provider other value keys :
  other <> provider ->
  key_of other (with_key provider value keys) = key_of other keys.
Proof. destruct provider, other; simpl; congruence. Qed.

(** X16.  No API key that is empty is ever sent: with an empty input
    [handleSaveApiKey] returns at once, nothing called, nothing shown,
    nothing changed, and every call of [onSaveApiKey], from the handler
    or from a click on the button, carries the provider's name and the
    non-empty key typed for that provider. *)
Theorem no_empty_api_key_is_saved
    (answer : NewDialog.settled) provider s :
  (key_of provider (apiKeys s) = "" ->
   handleSaveApiKey answer provider s = (s, []))
  /\ forall name apiKey,
       In (onSaveApiKey name apiKey)
          (snd (handleSaveApiKey answer provider s))
       \/ In (onSaveApiKey name apiKey)
             (snd (click_save_key answer provider s)) ->
       apiKey <> ""
       /\ apiKey = key_of provider (apiKeys s)
       /\ name = provider_name provider.
Proof.
  assert (Hcall : forall name apiKey,
            In (onSaveApiKey name apiKey)
               (snd (handleSaveApiKey answer provider s)) ->
            apiKey <> ""
            /\ apiKey = key_of provider (apiKeys s)
            /\ name = provider_name provider).
  { intros name apiKey. unfold handleSaveApiKey.
    destruct (String.eqb_spec (key_of provider (apiKeys s)) "") as [E|Hne];
      simpl; [tauto|].
    destruct answer; simpl; intros [H|[H|[]]]; try discriminate;
      injection H as <- <-; auto. }
  split.
  - intros E. unfold handleSaveApiKey. now rewrite E.
  - intros name apiKey [H|H]; [now apply Hcall|].
    unfold click_save_key in H.
    destruct (key_button_disabled provider s); [destruct H|].
    now apply Hcall.
Qed.

(** X17.  Saving an API key that is not empty empties the input of that
    provider when the save succeeds and leaves it as typed when it
    fails; the inputs of the other two providers and the preferences
    being edited are not touched; [isSaving] is off at the end; and one
    toast is shown, destructive and with the error's text on a
    failure. *)
Theorem saving_an_api_key_clears_its_input_only_on_success
    (answer : NewDialog.settled) provider s :
  key_of provider (apiKeys s) <> "" ->
  let '(s', effects) := handleSaveApiKey answer provider s in
  isSaving s' = false
  /\ localPreferences s' = localPreferences s
  /\ (forall other, other <> provider ->
        key_of other (apiKeys s') = key_of other (apiKeys s))
  /\ match answer with
     | NewDialog.Resolved =>
         key_of provider (apiKeys s') = ""
         /\ effects
            = [onSaveApiKey (provider_name provider)
                 (key_of provider (apiKeys s));
               toast (Model.mkToast "API密钥已保存"
                        (toUpperCase (provider_name provider)
                         ++ " API密钥已成功保存。")
                        None)]
     | NewDialog.Rejected error =>
         apiKeys s' = apiKeys s
         /\ effects
            = [onSaveApiKey (provider_name provider)
                 (key_of provider (apiKeys s));
               toast (Model.mkToast "保存API密钥失败"
                        (Model.error_description error)
                        (Some Model.destructive))]
     end.
Proof.
  intros Hkey. unfold handleSaveApiKey.
  destruct (String.eqb_spec (key_of provider (apiKeys s)) "") as [E|_];
    [contradiction|].
  destruct answer as [|error];
    cbn -[Model.error_description with_key key_of toUpperCase provider_name
          append].
  - split; [reflexivity|]. split; [reflexivity|]. split.
    + intros other Hne. now apply with_key_other.
    + split; [apply with_key_same|reflexivity].
  - repeat split.
Qed.

(** X18.  Saving the preferences hands the preferences being edited to
    [onSavePreferences] as they are and changes nothing in the panel;
    it shows one toast, destructive and with the error's text exactly
    when the save failed, and [isSaving] is off at the end. *)
Theorem saving_preferences_keeps_the_panel
    (answer : NewDialog.settled) s :
  let '(s', effects) := handleSavePreferences answer s in
  localPreferences s' = localPreferences s
  /\ apiKeys s' = apiKeys s
  /\ isSaving s' = false
  /\ exists shown,
       effects = [onSavePreferences (localPreferences s); toast shown]
       /\ (Model.variant shown = Some Model.destructive
           <-> exists error, answer = NewDialog.Rejected error)
       /\ forall error, answer = NewDialog.Rejected error ->
                        Model.toast_description shown
                        = Model.error_description error.
Proof.
  unfold handleSavePreferences.
  destruct answer as [|error]; cbn -[Model.error_description];
    repeat split; eexists; repeat split; try discriminate.
  - intros [error H]. discriminate.
  - exists error. reflexivity.
  - intros error' [= <-]. reflexivity.
Qed.

(** X20.  Typing a key changes the input of its provider and no other,
    and a key typed and then saved is sent as typed, when it is not
    empty. *)
Theorem typed_api_key_is_the_one_sent
    (answer : NewDialog.settled) provider (value : string) s :
  key_of provider (apiKeys (handleApiKeyChange provider value s)) = value
  /\ (forall other, other <> provider ->
        key_of other (apiKeys (handleApiKeyChange provider value s))
        = key_of other (apiKeys s))
  /\ (value <> "" ->
      exists shown,
        snd (handleSaveApiKey answer provider
               (handleApiKeyChange provider value s))
        = [onSaveApiKey (provider_name provider) value; toast shown]).
Proof.
  split; [apply with_key_same|]. split.
  - intros other Hne. now apply with_key_other.
  - intros Hvalue. unfold handleSaveApiKey.
    replace (key_of provider (apiKeys (handleApiKeyChange provider value s)))
      with value by (symmetry; apply with_key_same).
    destruct (String.eqb_spec value "") as [E|_]; [contradiction|].
    destruct answer; eexists; reflexivity.
Qed.

(** Preferences that arrive from the parent replace the ones being
    edited, and the next save sends them; when the parent has none the
    edited ones stay and are the ones sent.  The inputs of the API keys
    are not touched by either. *)
Lemma arriving_preferences_replace_the_edited_ones
    (answer : NewDialog.settled) (preferences : option Preferences) s :
  let s' := on_preferences Preferences preferences s in
  apiKeys s' = apiKeys s
  /\ localPreferences s'
     = match preferences with
       | Some p => p
       | None => localPreferences s
       end
  /\ exists shown,
       snd (handleSavePreferences answer s')
       = [onSavePreferences
            (match preferences with
             | Some p => p
             | None => localPreferences s
             end);
          toast shown].
Proof.
  destruct preferences as [p|]; simpl; repeat split;
    destruct answer; eexists; reflexivity.
Qed.

End SettingsFacts.

(* ================================================================= *)
(** * The further properties on the sample data *)

Lemma usage_view_of_rows_witness :
  Usage.sample_rows <> []
  /\ exact_counts Usage.sample_rows
  /\ Usage.UsageStatistics Usage.sample_getTime Usage.sample_rows
     = Js.Returns (Usage.Statistics 163 11 3 Usage.sample_sorted).
Proof.
  assert (Hrows : Usage.sample_rows <> []) by discriminate.
  split; [exact Hrows|]. split; [exact sample_rows_exact|].
  destruct (usage_view_of_rows Usage.sample_getTime Usage.sample_rows
              Usage.sample_sorted eq_refl Hrows sample_rows_exact)
    as [Hview _].
  exact (Hview sample_rows_dated).
Defined.

Lemma usage_model_lines_are_labelled_by_their_first_row_witness :
  Usage.sortedStats Usage.sample_getTime joined_rows
  = Js.Returns joined_sorted
  /\ map (fun b => map (fun e => Usage.tokens (snd e)) (Usage.models b))
       joined_sorted
     = [[12]]
  /\ forall b, In b joined_sorted ->
       forall k m, In (k, m) (Usage.models b) ->
         exists first rest,
           rows_of_model k (rows_of_date (Usage.bucket_date b) joined_rows)
           = first :: rest
           /\ Usage.name m = Usage.model_name first
           /\ Usage.entry_provider m = Usage.provider first
           /\ line_key m = k
           /\ Usage.tokens m
              = Zsum (map Usage.tokens_used (first :: rest))
           /\ Usage.requests m
              = Zsum (map Usage.request_count (first :: rest)).
Proof.
  split; [reflexivity|]. split; [reflexivity|].
  intros b Hb k m Hkm.
  destruct (usage_model_lines_are_labelled_by_their_first_row
              Usage.sample_getTime joined_rows joined_sorted eq_refl b Hb)
    as [_ Hlines].
  destruct (Hlines k m Hkm)
    as (first & rest & Hrows & Hname & Hprovider & Hkey & _ & _ & Hsums).
  exists first, rest.
  assert (Hexact : exact_counts joined_rows)
    by (split; vm_compute; discriminate).
  destruct (Hsums Hexact) as [Htokens Hrequests].
  repeat split; assumption.
Defined.

Lemma usage_one_more_row_adds_to_its_date_witness :
  Usage.sortedStats Usage.sample_getTime Usage.sample_rows
  = Js.Returns Usage.sample_sorted
  /\ Usage.sortedStats Usage.sample_getTime
       (Usage.sample_rows ++ [one_more_row])
     = Js.Returns sample_sorted_more
  /\ date_totals Usage.sample_sorted "2024-01-02" = Some (40, 2)
  /\ date_totals sample_sorted_more "2024-01-02" = Some (43, 3).
Proof.
  split; [reflexivity|]. split; [reflexivity|]. split; [reflexivity|].
  pose proof (usage_one_more_row_adds_to_its_date Usage.sample_getTime
                Usage.sample_rows one_more_row Usage.sample_sorted
                sample_sorted_more eq_refl eq_refl) as H.
  cbv beta iota zeta delta [date_totals bucket_of Usage.sample_sorted
    one_more_row Usage.date find option_map String.eqb Ascii.eqb Bool.eqb
    Usage.bucket_date Usage.totalTokens Usage.totalRequests] in H.
  destruct H as [Hdate _]. exact Hdate.
Defined.

Lemma parseInt_of_toString_witness :
  JsNumber.isSafeInteger 12 = true
  /\ JsNumber.parseInt (JsNumber.toString 12) = JsNumber.Int 12.
Proof.
  split; [reflexivity|].
  apply (parseInt_of_toString 12). reflexivity.
Defined.

Lemma model_select_gives_the_model_or_NaN_witness :
  Forall (fun model => JsNumber.isSafeInteger (Model.ai_id model) = true)
    [sample_model]
  /\ In (JsNumber.toString 12) (JsNumber.item_values [sample_model])
  /\ ((JsNumber.toString 12 = Js.ascii_text "default"
       /\ JsNumber.onValueChange (JsNumber.toString 12) = Some JsNumber.NaN)
      \/ exists model,
           In model [sample_model]
           /\ JsNumber.toString 12 = JsNumber.toString (Model.ai_id model)
           /\ JsNumber.onValueChange (JsNumber.toString 12)
              = Some (JsNumber.Int (Model.ai_id model))).
Proof.
  assert (Hsafe : Forall (fun model =>
                            JsNumber.isSafeInteger (Model.ai_id model) = true)
                    [sample_model])
    by (repeat constructor).
  assert (Hin : In (JsNumber.toString 12)
                  (JsNumber.item_values [sample_model]))
    by (right; left; reflexivity).
  split; [exact Hsafe|]. split; [exact Hin|].
  exact (model_select_gives_the_model_or_NaN [sample_model]
           (JsNumber.toString 12) Hsafe Hin).
Defined.

Lemma last_answered_load_of_messages_is_shown_witness :
  let be := Assistant.sample_backend in
  let called :=
    Async.call (Async.loadMessages be 8)
      (Async.call (Async.loadMessages be 7)
         (Async.idle Assistant.initial_world)) in
  Assistant.get_conversation be 7
  = Assistant.Json [Assistant.sample_message 1 7 "hello"]
  /\ Assistant.get_conversation be 8
     = Assistant.Json [Assistant.sample_message 1 8 "hello"]
  /\ Assistant.messages
       (Assistant.ui
          (Async.world (Async.settle_all [1; 1; 0; 0]%nat called)))
     = [Assistant.sample_message 1 7 "hello"].
Proof.
  split; [reflexivity|]. split; [reflexivity|].
  destruct (last_answered_load_of_messages_is_shown Assistant.sample_backend
              7 8 Assistant.initial_world
              [Assistant.sample_message 1 7 "hello"]
              [Assistant.sample_message 1 8 "hello"] eq_refl eq_refl)
    as (_ & _ & _ & _ & _ & Hshown & _).
  exact Hshown.
Defined.

Lemma conversation_url_determines_the_conversation_witness :
  7 <> 8 /\ Assistant.conversation_url 7 <> Assistant.conversation_url 8.
Proof.
  split; [discriminate|].
  apply (conversation_url_determines_the_conversation 7 8). discriminate.
Defined.

Lemma conversations_load_with_failed_messages_witness :
  let be :=
    Assistant.mkBackend
      (Assistant.Json [Assistant.sample_conversation 7 "first"])
      (fun _ => Assistant.NotOk) Assistant.NotOk Assistant.NotOk
      Assistant.NotOk in
  let w' := Assistant.loadConversations be Assistant.initial_world in
  Assistant.currentConversation (Assistant.ui w')
  = Some (Assistant.sample_conversation 7 "first")
  /\ Assistant.messages (Assistant.ui w') = []
  /\ Assistant.isLoadingMessages (Assistant.ui w') = false.
Proof.
  destruct (conversations_load_with_failed_messages
              (Assistant.mkBackend
                 (Assistant.Json [Assistant.sample_conversation 7 "first"])
                 (fun _ => Assistant.NotOk) Assistant.NotOk Assistant.NotOk
                 Assistant.NotOk)
              Assistant.initial_world
              (Assistant.sample_conversation 7 "first") []
              eq_refl eq_refl eq_refl)
    as (_ & Hsel & Hmsgs & _ & Hflag & _).
  split; [exact Hsel|]. split; [exact Hmsgs|exact Hflag].
Defined.


Lemma create_closes_only_on_success_witness :
  let form :=
    NewDialog.mkState (Js.ascii_text "plans") (Some 3) "be brief" false in
  Js.blank (NewDialog.title form) = false
  /\ fst (NewDialog.handleCreate
            (NewDialog.Rejected (Js.ErrorObject "no network")) form)
     = form.
Proof.
  split; [reflexivity|].
  pose proof (create_closes_only_on_success
                (NewDialog.Rejected (Js.ErrorObject "no network"))
                (NewDialog.mkState (Js.ascii_text "plans") (Some 3)
                   "be brief" false) eq_refl) as H.
  destruct (NewDialog.handleCreate _ _) as [s' effects].
  destruct H as (Hoff & _ & _ & Hkept).
  destruct (Hkept _ eq_refl) as (Ht & Hm & Hp & _).
  destruct s'; simpl in *. now subst.
Defined.

Lemma saving_an_api_key_clears_its_input_only_on_success_witness :
  Settings.key_of Settings.openai (Settings.apiKeys typed_settings) <> ""
  /\ Settings.apiKeys
       (fst (Settings.handleSaveApiKey NewDialog.Resolved Settings.openai
               typed_settings))
     = Settings.mkApiKeys "" "" "k-3".
Proof.
  split; [discriminate|].
  assert (Hkey : Settings.key_of Settings.openai
                   (Settings.apiKeys typed_settings) <> "")
    by discriminate.
  pose proof (saving_an_api_key_clears_its_input_only_on_success
                NewDialog.Resolved Settings.openai typed_settings Hkey) as H.
  destruct (Settings.handleSaveApiKey _ _ _) as [s' effects].
  destruct H as (_ & _ & Hothers & Hcleared & _).
  pose proof (Hothers Settings.anthropic) as Ha.
  pose proof (Hothers Settings.gemini) as Hg.
  destruct s' as [p [k1 k2 k3] saving]. simpl in *.
  rewrite Hcleared, Ha, Hg by discriminate. reflexivity.
Defined.

(* ================================================================= *)
(** * ConversationListItem: the keys *)

(** X19.  A rename with a title that is not blank calls [onRename] once,
    with the title as it was typed, the white space around it included,
    and ends the editing.  No key but Enter calls a prop; Escape ends
    the editing and puts the conversation's title back in the input. *)
Theorem rename_sends_the_title_as_typed
    (conversation : Model.Conversation) (s : ListItem.State) :
  (forall how,
     Js.blank (ListItem.title s) = false ->
     ListItem.submit conversation how s
     = (ListItem.mkState false (ListItem.title s),
        [ListItem.onRename (ListItem.title s)]))
  /\ (forall key,
        key <> "Enter" ->
        snd (ListItem.handleKeyDown conversation key s) = [])
  /\ ListItem.handleKeyDown conversation "Escape" s
     = (ListItem.init conversation, []).
Proof.
  split; [|split].
  - intros how Hblank.
    destruct how;
      unfold ListItem.submit, ListItem.handleKeyDown, ListItem.handleRename;
      rewrite ?String.eqb_refl, truthy_trim, Hblank; reflexivity.
  - intros key Hkey. unfold ListItem.handleKeyDown.
    destruct (String.eqb_spec key "Enter"); [contradiction|].
    now destruct (String.eqb key "Escape").
  - reflexivity.
Qed.

Lemma rename_sends_the_title_as_typed_witness :
  let s := ListItem.mkState true [32; 97; 32]%N in
  Js.blank (ListItem.title s) = false
  /\ ListItem.submit (Assistant.sample_conversation 7 "first")
       ListItem.Blur s
     = (ListItem.mkState false [32; 97; 32]%N,
        [ListItem.onRename [32; 97; 32]%N]).
Proof.
  split; [reflexivity|].
  destruct (rename_sends_the_title_as_typed
              (Assistant.sample_conversation 7 "first")
              (ListItem.mkState true [32; 97; 32]%N)) as (Hsubmit & _).
  apply (Hsubmit ListItem.Blur). reflexivity.
Defined.
